(** * DevInsiderCoin: consensus engine, a shallow embedding

    The development follows the Go sources of the node:
    - [internal/blockchain/pow.go]      compact targets ([CompactToBig],
                                        [BigToCompact]) and its proof-of-work
                                        check
    - the difficulty regulator          compact targets ([BitsToTarget],
                                        [TargetToBits]), its proof-of-work
                                        check and the progressive floor
    - the block codec                   header serialisation, hashes, Merkle
                                        root
    - [internal/blockchain/pos.go]      the stake ledger
    - [internal/storage/store.go]       the bucket store and its block commit
    - [internal/blockchain/chain.go]    the chain state machine, bootstrap
                                        and genesis block
    - the miner                         its nonce search

    Conventions.  Go's fixed-width integers are integers of [Z] whose
    wrap-around is written out ([u32], [u64], [i64]); [big.Int] is [Z];
    [float64] is the kernel's binary64 ([PrimFloat.float]); a Go [string] is a
    [string] and a byte slice is a [list byte]; Go maps are [gmap]s.  Of the
    Go library, [encoding/hex], [crypto/sha256] and the limits of a bbolt
    bucket are modelled; the number and string syntax of [encoding/json] is
    an interface ([Encoding]).

    The file has four parts: the model, worked inputs, the vocabulary of the
    properties, and the properties with their proofs. *)

From Stdlib Require Import ZArith List Strings.String Strings.Ascii Strings.Byte.
From Stdlib Require Import DecimalString PrimFloat SpecFloat FloatOps Lia.
From stdpp Require Import gmap strings list.

Local Open Scope Z_scope.

(** ** Machine integers *)

Definition u8 (z : Z) : Z := Z.land z 0xff.
Definition u32 (z : Z) : Z := z mod 2 ^ 32.
Definition u64 (z : Z) : Z := z mod 2 ^ 64.
(** [int64(x)] of an unsigned 64-bit value: two's complement reading. *)
Definition i64 (z : Z) : Z :=
  let w := u64 z in if w <? 2 ^ 63 then w else w - 2 ^ 64.

(** ** Bytes *)

Definition byte_to_Z (b : byte) : Z := Z.of_N (Byte.to_N b).

(** [byte(v)]: the low eight bits. *)
Definition byte_of_Z (z : Z) : byte :=
  match Byte.of_N (Z.to_N (u8 z)) with
  | Some b => b
  | None => x00
  end.

Definition bytes_of_string (s : string) : list byte := list_byte_of_string s.
Definition string_of_bytes (l : list byte) : string := string_of_list_byte l.

(** [new(big.Int).SetBytes(buf)]: big-endian, unsigned. *)
Definition SetBytes (buf : list byte) : Z :=
  fold_left (fun acc b => acc * 256 + byte_to_Z b) buf 0.

(** Number of bytes of [big.Int.Bytes()]: none for zero. *)
Definition byte_len (n : Z) : Z :=
  if Z.abs n =? 0 then 0 else Z.log2 (Z.abs n) / 8 + 1.

(** [big.Int.Bytes()]: the absolute value, big-endian, no leading zero. *)
Definition Bytes (n : Z) : list byte :=
  let len := Z.to_nat (byte_len n) in
  map (fun i : nat => byte_of_Z (Z.shiftr (Z.abs n) (8 * Z.of_nat (len - 1 - i))))
      (seq 0 len).

(** [b[i]] as an unsigned number; the model reads 0 out of range, and every
    read below is guarded by the length as in the source. *)
Definition at_ (b : list byte) (i : nat) : Z := byte_to_Z (nth i b x00).

(** ** encoding/hex *)

Module hex.

(** [fromHexChar]. *)
Definition fromHexChar (c : ascii) : option Z :=
  let n := Z.of_nat (nat_of_ascii c) in
  if (48 <=? n) && (n <=? 57) then Some (n - 48)
  else if (97 <=? n) && (n <=? 102) then Some (n - 97 + 10)
  else if (65 <=? n) && (n <=? 70) then Some (n - 65 + 10)
  else None.

(** [Decode]: the bytes decoded before the first error, and whether an
    error (bad character or odd length) was met. *)
Fixpoint Decode (s : string) : list byte * bool :=
  match s with
  | EmptyString => ([], true)
  | String p EmptyString => ([], false)
  | String p (String q rest) =>
      match fromHexChar p, fromHexChar q with
      | Some a, Some b =>
          let '(out, ok) := Decode rest in
          (byte_of_Z (Z.lor (Z.shiftl a 4) b) :: out, ok)
      | _, _ => ([], false)
      end
  end.

(** [hex.DecodeString]: [snd] is [err == nil]. *)
Definition DecodeString (s : string) : list byte * bool := Decode s.

Definition hexdigit (n : Z) : ascii :=
  ascii_of_nat (Z.to_nat (if n <? 10 then 48 + n else 97 + (n - 10))).

(** [hex.EncodeToString]: lower case. *)
Fixpoint EncodeToString (l : list byte) : string :=
  match l with
  | [] => EmptyString
  | b :: rest =>
      String (hexdigit (Z.shiftr (byte_to_Z b) 4))
        (String (hexdigit (Z.land (byte_to_Z b) 0xf)) (EncodeToString rest))
  end.

End hex.

(** ** pow.go: compact targets *)

Module pow.

(** [CompactToBig]. *)
Definition CompactToBig (compact : Z) : Z :=
  let mantissa := Z.land compact 0x007fffff in
  let isNegative := negb (Z.land compact 0x00800000 =? 0) in
  let exponent := Z.shiftr compact 24 in
  let bn :=
    if exponent <=? 3
    then Z.shiftr mantissa (8 * (3 - exponent))
    else Z.shiftl mantissa (8 * (exponent - 3)) in
  if isNegative then - bn else bn.

(** The loop [for i, v := range b { word |= uint32(v) << (8 * (2 - i)) }]
    of [BigToCompact], run from index [i]. *)
Fixpoint word_of (b : list byte) (i : Z) (word : Z) : Z :=
  match b with
  | [] => word
  | v :: rest => word_of rest (i + 1) (Z.lor word (u32 (Z.shiftl (byte_to_Z v) (8 * (2 - i)))))
  end.

(** [BigToCompact]. *)
Definition BigToCompact (target : Z) : Z :=
  if Z.sgn target =? 0 then 0 else
  let b := Bytes target in
  let size := u32 (Z.of_nat (length b)) in
  let compact :=
    if size <=? 3
    then Z.lor (u32 (Z.shiftl size 24)) (word_of b 0 0)
    else Z.lor (Z.lor (Z.lor (u32 (Z.shiftl size 24)) (Z.shiftl (at_ b 0) 16))
                      (Z.shiftl (at_ b 1) 8))
               (at_ b 2) in
  if negb (Z.land compact 0x00800000 =? 0)
  then
    let compact := Z.shiftr compact 8 in
    let size := u32 (size + 1) in
    Z.lor (u32 (Z.shiftl size 24)) (Z.land compact 0x007fffff)
  else compact.

(** [CheckProofOfWork] of pow.go: no length test on the decoded hash. *)
Definition CheckProofOfWork (hash : string) (bits : Z) : bool :=
  let target := CompactToBig bits in
  let '(hashBytes, ok) := hex.DecodeString hash in
  if negb ok then false
  else SetBytes hashBytes <=? target.

End pow.

(** ** The difficulty regulator: compact targets, progressive floor *)

Module difficulty.

(** [BitsToTarget]. *)
Definition BitsToTarget (bits : Z) : Z :=
  let exponent := Z.shiftr bits 24 in
  let mantissa := Z.land bits 0x007FFFFF in
  if exponent <=? 3
  then Z.shiftr mantissa (u32 (8 * (3 - exponent)))
  else Z.shiftl mantissa (u32 (8 * (exponent - 3))).

(** [TargetToBits]. *)
Definition TargetToBits (target : Z) : Z :=
  if Z.sgn target =? 0 then 0 else
  let bytes := Bytes target in
  let exponent := u32 (Z.of_nat (length bytes)) in
  let mantissa :=
    if (3 <=? length bytes)%nat
    then Z.lor (Z.lor (Z.shiftl (at_ bytes 0) 16) (Z.shiftl (at_ bytes 1) 8)) (at_ bytes 2)
    else if (length bytes =? 2)%nat
    then Z.lor (Z.shiftl (at_ bytes 0) 8) (at_ bytes 1)
    else at_ bytes 0 in
  let '(mantissa, exponent) :=
    if negb (Z.land mantissa 0x800000 =? 0)
    then (Z.shiftr mantissa 8, u32 (exponent + 1))
    else (mantissa, exponent) in
  Z.lor (u32 (Z.shiftl exponent 24)) mantissa.

(** [CheckProofOfWork] of the regulator: the decoded hash must be 32 bytes. *)
Definition CheckProofOfWork (hashHex : string) (bits : Z) : bool :=
  let '(hashBytes, ok) := hex.DecodeString hashHex in
  if negb ok || negb (length hashBytes =? 32)%nat then false
  else
    let hashInt := SetBytes hashBytes in
    let target := BitsToTarget bits in
    hashInt <=? target.

(** The target the floor encodes at a non-zero epoch: the shifted maximum
    target, raised to one when the shift empties it. *)
Definition floorTargetAt (epoch : Z) (minBits : Z) : Z :=
  let epoch := if epoch >? 60 then 60 else epoch in
  let maxTarget := BitsToTarget minBits in
  let floorTarget := Z.shiftr maxTarget epoch in
  if Z.sgn floorTarget =? 0 then 1 else floorTarget.

(** [ProgressiveDifficultyFloor]. *)
Definition ProgressiveDifficultyFloor (height epochBlocks minBits : Z) : Z :=
  if epochBlocks =? 0 then minBits else
  let epoch := height / epochBlocks in
  if epoch =? 0 then minBits else
  TargetToBits (floorTargetAt epoch minBits).

(** [ApplyProgressiveDifficulty]. *)
Definition ApplyProgressiveDifficulty (bits height epochBlocks minBits : Z) : Z :=
  let floorBits := ProgressiveDifficultyFloor height epochBlocks minBits in
  let target := BitsToTarget bits in
  let floorTarget := BitsToTarget floorBits in
  if target >? floorTarget then floorBits else bits.

End difficulty.

(** ** crypto/sha256 *)

Module sha256.

Definition add32 (a b : Z) : Z := u32 (a + b).
Definition rotr (x n : Z) : Z :=
  u32 (Z.lor (Z.shiftr x n) (Z.shiftl x (32 - n))).
Definition not32 (x : Z) : Z := 0xffffffff - x.

Definition Ch (x y z : Z) : Z := Z.lxor (Z.land x y) (Z.land (not32 x) z).
Definition Maj (x y z : Z) : Z :=
  Z.lxor (Z.lxor (Z.land x y) (Z.land x z)) (Z.land y z).
Definition Sigma0 (x : Z) : Z := Z.lxor (Z.lxor (rotr x 2) (rotr x 13)) (rotr x 22).
Definition Sigma1 (x : Z) : Z := Z.lxor (Z.lxor (rotr x 6) (rotr x 11)) (rotr x 25).
Definition sigma0 (x : Z) : Z := Z.lxor (Z.lxor (rotr x 7) (rotr x 18)) (Z.shiftr x 3).
Definition sigma1 (x : Z) : Z := Z.lxor (Z.lxor (rotr x 17) (rotr x 19)) (Z.shiftr x 10).

(** The first [n] primes, by trial division. *)
Definition is_prime (n : Z) : bool :=
  forallb (fun d : nat => negb (n mod Z.of_nat d =? 0)) (seq 2 (Z.to_nat n - 2)).

Definition first_primes (n : nat) : list Z :=
  firstn n (List.filter is_prime (map Z.of_nat (seq 2 320))).

(** The integer cube root of a number below [2 ^ 108], bit by bit. *)
Definition cube_root (n : Z) : Z :=
  fold_left (fun r b => let r' := r + 2 ^ Z.of_nat b in
                        if r' * r' * r' <=? n then r' else r)
            (rev (seq 0 36)) 0.

(** The round constants: the first 32 bits of the fractional parts of the
    cube roots of the first 64 primes. *)
Definition K : list Z :=
  Eval vm_compute in map (fun p => u32 (cube_root (p * 2 ^ 96))) (first_primes 64).

(** The initial hash value: the same for the square roots of the first 8
    primes. *)
Definition H0 : list Z :=
  Eval vm_compute in map (fun p => u32 (Z.sqrt (p * 2 ^ 64))) (first_primes 8).

(** Padding: the bit 1, zeros up to 56 mod 64, the bit length on 8 bytes. *)
Definition pad (msg : list Z) : list Z :=
  let len := Z.of_nat (length msg) in
  let zeros := Z.to_nat ((55 - len) mod 64) in
  let bits := 8 * len in
  msg ++ [0x80] ++ repeat 0 zeros
      ++ map (fun i : Z => u8 (Z.shiftr bits (8 * (7 - i)))) [0; 1; 2; 3; 4; 5; 6; 7].

(** Big-endian 32-bit words of a byte list (a multiple of 4 long). *)
Fixpoint words (fuel : nat) (l : list Z) : list Z :=
  match fuel, l with
  | S fuel, a :: b :: c :: d :: rest =>
      (a * 2 ^ 24 + b * 2 ^ 16 + c * 2 ^ 8 + d) :: words fuel rest
  | _, _ => []
  end.

(** The message schedule, newest word first: [w] holds W[i-1], W[i-2], ... *)
Fixpoint schedule (n : nat) (w : list Z) : list Z :=
  match n with
  | O => w
  | S n =>
      let wi := add32 (add32 (sigma1 (nth 1 w 0)) (nth 6 w 0))
                      (add32 (sigma0 (nth 14 w 0)) (nth 15 w 0)) in
      schedule n (wi :: w)
  end.

Definition round (st : list Z) (kw : Z * Z) : list Z :=
  match st with
  | [a; b; c; d; e; f; g; h] =>
      let t1 := add32 (add32 (add32 h (Sigma1 e)) (add32 (Ch e f g) (fst kw))) (snd kw) in
      let t2 := add32 (Sigma0 a) (Maj a b c) in
      [add32 t1 t2; a; b; c; add32 d t1; e; f; g]
  | _ => st
  end.

Definition compress (h : list Z) (block : list Z) : list Z :=
  let w := rev (schedule 48 (rev block)) in
  let st := fold_left round (combine K w) h in
  map (fun p : Z * Z => add32 (fst p) (snd p)) (combine h st).

Fixpoint blocks (fuel : nat) (h : list Z) (ws : list Z) : list Z :=
  match fuel with
  | O => h
  | S fuel =>
      match ws with
      | [] => h
      | _ => blocks fuel (compress h (firstn 16 ws)) (skipn 16 ws)
      end
  end.

Definition word_bytes (w : Z) : list Z :=
  [u8 (Z.shiftr w 24); u8 (Z.shiftr w 16); u8 (Z.shiftr w 8); u8 w].

(** [sha256.Sum256]. *)
Definition Sum256 (data : list byte) : list byte :=
  let p := pad (map byte_to_Z data) in
  let ws := words (length p) p in
  map byte_of_Z (flat_map word_bytes (blocks (length ws) H0 ws)).

End sha256.

(** ** Errors

    Every [fmt.Errorf] and every bbolt error the modelled code can return, by
    name; the formatted text is not modelled. *)

Inductive error : Type :=
  (* bbolt: Bucket.Put and the write transaction *)
  | ErrKeyRequired
  | ErrKeyTooLarge
  | ErrValueTooLarge
  | ErrDiskWrite
  (* pos.go *)
  | ErrNoStake (address : string)
  | ErrInsufficientStake (have want : float)
  (* chain.go, mempool admission *)
  | ErrInsufficientBalance (have need : float)
  | ErrInsufficientAvailable
  | ErrMinimumStake (minimum : float)
  | ErrTotalStakeBelowThreshold (threshold : float)
  (* chain.go, validateBlock *)
  | ErrBadHeight (expected got : Z)
  | ErrBadPrevHash
  | ErrBadHash (computed got : string)
  | ErrInsufficientProofOfWork
  | ErrTooManyTransactions (n limit : Z)
  | ErrBlockTooLarge (n limit : Z)
  | ErrBelowProgressiveFloor (height : Z)
  (* chain.go, AddBlock: wrapped errors *)
  | ErrValidationFailed (cause : error)
  | ErrDbCommitFailed (cause : error).

Inductive result (A : Type) : Type :=
  | Ok (a : A)
  | Err (e : error).
Arguments Ok {A} a.
Arguments Err {A} e.

Definition bind {A B : Type} (r : result A) (k : A -> result B) : result B :=
  match r with
  | Ok a => k a
  | Err e => Err e
  end.

Declare Scope result_scope.
Delimit Scope result_scope with result.
Notation "'let_ok' x := r 'in' k" := (bind r (fun x => k))
  (at level 10, x name, r at level 100, k at level 200) : result_scope.

(** ** Data model (the block codec) *)

Record BlockHeader : Type := mkBlockHeader {
  Version : Z;          (* uint32 *)
  PrevHash : string;
  MerkleRoot : string;
  Timestamp : Z;        (* int64 *)
  Bits : Z;             (* uint32 *)
  Nonce : Z;            (* uint64 *)
  Height : Z            (* uint64 *)
}.

Record TxOutput : Type := mkTxOutput {
  Address : string;
  OutAmount : float
}.

Record Transaction : Type := mkTransaction {
  TxID : string;
  TxType : string;      (* coinbase, transfer, stake, unstake, pos_reward *)
  From : string;
  To : string;
  Amount : float;
  Fee : float;
  TxTimestamp : Z;      (* int64 *)
  Signature : string;
  Outputs : list TxOutput
}.

Record Block : Type := mkBlock {
  Header : BlockHeader;
  Transactions : list Transaction;
  Hash : string
}.

(** A staked amount and the height of its first block (pos.go). *)
Record Stake : Type := mkStake {
  StakeAddress : string;
  StakeAmount : float;
  BlockHeight : Z       (* uint64 *)
}.

(** A header whose fields are in the range of their Go types. *)
Definition header_in_range (h : BlockHeader) : Prop :=
  0 <= Version h < 2 ^ 32 /\ - 2 ^ 63 <= Timestamp h < 2 ^ 63 /\
  0 <= Bits h < 2 ^ 32 /\ 0 <= Nonce h < 2 ^ 64.

(** ** encoding/json

    The struct encoders below follow the field tags of the sources.  The two
    leaf encoders of the Go library are an interface of the development:
    [FormatFloat] is the number syntax of a [float64] ([None] for NaN and the
    infinities, which [json.Marshal] refuses) and [Quote] the string syntax. *)

Class Encoding : Type := {
  FormatFloat : float -> option string;
  Quote : string -> string
}.

Module json.
Section Marshal.

Context {enc : Encoding}.

Definition dq : string := String (ascii_of_nat 34) EmptyString.

Definition FormatInt (z : Z) : string := NilZero.string_of_int (Z.to_int z).

Definition key (name : string) : string := (dq +:+ name +:+ dq +:+ ":")%string.

Definition object (fields : list string) : string :=
  ("{" +:+ String.concat "," fields +:+ "}")%string.

Definition array (items : list string) : string :=
  ("[" +:+ String.concat "," items +:+ "]")%string.

(** A string field tagged [omitempty]. *)
Definition omitempty (name value : string) : list string :=
  if (value =? "")%string then [] else [(key name +:+ Quote value)%string].

(** All or nothing: one failing element fails the whole value. *)
Fixpoint sequence (l : list (option string)) : option (list string) :=
  match l with
  | [] => Some []
  | Some x :: rest =>
      match sequence rest with Some xs => Some (x :: xs) | None => None end
  | None :: _ => None
  end.

Definition MarshalFloat (f : float) : option string := FormatFloat f.

Definition MarshalTxOutput (o : TxOutput) : option string :=
  match FormatFloat (OutAmount o) with
  | Some a => Some (object [(key "address" +:+ Quote (Address o))%string;
                            (key "amount" +:+ a)%string])
  | None => None
  end.

Definition MarshalTransaction (tx : Transaction) : option string :=
  match FormatFloat (Amount tx), FormatFloat (Fee tx),
        sequence (map MarshalTxOutput (Outputs tx)) with
  | Some a, Some f, Some outs =>
      Some (object
        ([(key "txid" +:+ Quote (TxID tx))%string;
          (key "type" +:+ Quote (TxType tx))%string]
         ++ omitempty "from" (From tx)
         ++ omitempty "to" (To tx)
         ++ [(key "amount" +:+ a)%string;
             (key "fee" +:+ f)%string;
             (key "timestamp" +:+ FormatInt (TxTimestamp tx))%string]
         ++ omitempty "signature" (Signature tx)
         ++ match outs with
            | [] => []
            | _ => [(key "outputs" +:+ array outs)%string]
            end))
  | _, _, _ => None
  end.

(** The anonymous struct of [ComputeTxID]: no field is omitted. *)
Definition MarshalTxIDFields (tx : Transaction) : option string :=
  match FormatFloat (Amount tx) with
  | Some a =>
      Some (object [(key "type" +:+ Quote (TxType tx))%string;
                    (key "from" +:+ Quote (From tx))%string;
                    (key "to" +:+ Quote (To tx))%string;
                    (key "amount" +:+ a)%string;
                    (key "timestamp" +:+ FormatInt (TxTimestamp tx))%string])
  | None => None
  end.

Definition MarshalBlockHeader (h : BlockHeader) : string :=
  object [(key "version" +:+ FormatInt (Version h))%string;
          (key "prev_hash" +:+ Quote (PrevHash h))%string;
          (key "merkle_root" +:+ Quote (MerkleRoot h))%string;
          (key "timestamp" +:+ FormatInt (Timestamp h))%string;
          (key "bits" +:+ FormatInt (Bits h))%string;
          (key "nonce" +:+ FormatInt (Nonce h))%string;
          (key "height" +:+ FormatInt (Height h))%string].

(** A block; a block without transactions holds the nil slice ([null]). *)
Definition MarshalBlock (b : Block) : option string :=
  match sequence (map MarshalTransaction (Transactions b)) with
  | Some txs =>
      Some (object [(key "header" +:+ MarshalBlockHeader (Header b))%string;
                    (key "transactions" +:+
                       match txs with [] => "null" | _ => array txs end)%string;
                    (key "hash" +:+ Quote (Hash b))%string])
  | None => None
  end.

Definition MarshalStake (st : Stake) : option string :=
  match FormatFloat (StakeAmount st) with
  | Some a =>
      Some (object [(key "address" +:+ Quote (StakeAddress st))%string;
                    (key "amount" +:+ a)%string;
                    (key "block_height" +:+ FormatInt (BlockHeight st))%string])
  | None => None
  end.

(** [data, _ := json.Marshal(v)]: the error is dropped and [data] is nil. *)
Definition orNil (r : option string) : list byte :=
  match r with
  | Some s => bytes_of_string s
  | None => []
  end.

End Marshal.
End json.

(** ** The block codec: header serialisation, hashes, Merkle root *)

Module block.
Section Codec.

Context {enc : Encoding}.

(** [SHA256d]: double SHA-256. *)
Definition SHA256d (data : list byte) : list byte :=
  let first := sha256.Sum256 data in
  sha256.Sum256 first.

(** [binary.LittleEndian.PutUint32]. *)
Definition PutUint32 (v : Z) : list byte :=
  [byte_of_Z v; byte_of_Z (Z.shiftr v 8); byte_of_Z (Z.shiftr v 16);
   byte_of_Z (Z.shiftr v 24)].

(** [binary.LittleEndian.PutUint64]. *)
Definition PutUint64 (v : Z) : list byte :=
  [byte_of_Z v; byte_of_Z (Z.shiftr v 8); byte_of_Z (Z.shiftr v 16);
   byte_of_Z (Z.shiftr v 24); byte_of_Z (Z.shiftr v 32); byte_of_Z (Z.shiftr v 40);
   byte_of_Z (Z.shiftr v 48); byte_of_Z (Z.shiftr v 56)].

(** [padHashBytes]: left-pad with zeros to 32 bytes, or keep the first 32. *)
Definition padHashBytes (hexStr : string) : list byte :=
  let decoded := fst (hex.DecodeString hexStr) in
  if (length decoded <? 32)%nat
  then repeat x00 (32 - length decoded) ++ decoded
  else firstn 32 decoded.

(** [Serialize]: the buffer after each [append]. *)
Definition Serialize (h : BlockHeader) : list byte :=
  let buf := [] in
  let buf := buf ++ PutUint32 (Version h) in
  let buf := buf ++ padHashBytes (PrevHash h) in
  let buf := buf ++ padHashBytes (MerkleRoot h) in
  let buf := buf ++ PutUint64 (u64 (Timestamp h)) in
  let buf := buf ++ PutUint32 (Bits h) in
  let buf := buf ++ PutUint64 (Nonce h) in
  buf.

(** [ComputeHash]. *)
Definition ComputeHash (h : BlockHeader) : string :=
  let data := Serialize h in
  let hash := SHA256d data in
  hex.EncodeToString hash.

(** [ComputeTxID]. *)
Definition ComputeTxID (tx : Transaction) : string :=
  let data := json.orNil (json.MarshalTxIDFields tx) in
  hex.EncodeToString (SHA256d data).

(** One pass of the reduction loop of [ComputeMerkleRoot]: neighbours are
    hashed together, an odd last element with itself. *)
Fixpoint pairUp (hashes : list (list byte)) : list (list byte) :=
  match hashes with
  | [] => []
  | [a] => [SHA256d (a ++ a)]
  | a :: b :: rest => SHA256d (a ++ b) :: pairUp rest
  end.

(** [for len(hashes) > 1 { ... }]; the length is enough fuel, as every pass
    at least halves it. *)
Fixpoint reduce (fuel : nat) (hashes : list (list byte)) : list (list byte) :=
  match fuel with
  | O => hashes
  | S fuel => if (1 <? length hashes)%nat then reduce fuel (pairUp hashes) else hashes
  end.

(** [ComputeMerkleRoot]. *)
Definition ComputeMerkleRoot (txs : list Transaction) : string :=
  if (length txs =? 0)%nat
  then string_of_bytes (repeat "0"%byte 64)
  else
    let hashes := map (fun tx => SHA256d (json.orNil (json.MarshalTransaction tx))) txs in
    hex.EncodeToString (nth 0 (reduce (length hashes) hashes) []).

(** [NewCoinbaseTransaction]; [now] is [time.Now().Unix()]. *)
Definition NewCoinbaseTransaction (minerAddress : string) (reward : float)
    (height now : Z) : Transaction :=
  let tx := {| TxID := ""; TxType := "coinbase"; From := ""; To := minerAddress;
               Amount := reward; Fee := 0; TxTimestamp := now; Signature := "";
               Outputs := [ {| Address := minerAddress; OutAmount := reward |} ] |} in
  {| TxID := ComputeTxID tx; TxType := TxType tx; From := From tx; To := To tx;
     Amount := Amount tx; Fee := Fee tx; TxTimestamp := TxTimestamp tx;
     Signature := Signature tx; Outputs := Outputs tx |}.

End Codec.
End block.

(** ** The difficulty regulator, continued: retargeting over blocks *)

Module retarget.

Import difficulty.

(** [big.Int.Div]: Euclidean division, the remainder is never negative. *)
Definition EuclidDiv (x m : Z) : Z := if 0 <? m then x / m else - (x / - m).

(** [CalcNextBits]; [None] is a run-time panic: an index out of range when
    the interval is zero, a division by zero when the expected time is. *)
Definition CalcNextBits (blocks : list Block) (adjustInterval targetSeconds minBits : Z)
    : option Z :=
  let n := Z.of_nat (length blocks) in
  if n =? 0 then Some minBits
  else if n <? adjustInterval
  then option_map (fun b => Bits (Header b)) (nth_error blocks (Z.to_nat (n - 1)))
  else
    match nth_error blocks (Z.to_nat (n - 1)) with
    | None => None
    | Some last =>
        if (n - adjustInterval <? 0) || (n <=? n - adjustInterval) then None else
        match nth_error blocks (Z.to_nat (n - adjustInterval)) with
        | None => None
        | Some first =>
            let actualTime := i64 (Timestamp (Header last) - Timestamp (Header first)) in
            let expectedTime := i64 (i64 adjustInterval * i64 targetSeconds) in
            let actualTime :=
              if actualTime <? Z.quot expectedTime 4 then Z.quot expectedTime 4
              else actualTime in
            let actualTime :=
              if actualTime >? i64 (expectedTime * 4) then i64 (expectedTime * 4)
              else actualTime in
            let currentTarget := BitsToTarget (Bits (Header last)) in
            let newTarget := currentTarget * actualTime in
            if expectedTime =? 0 then None else
            let newTarget := EuclidDiv newTarget expectedTime in
            let maxTarget := BitsToTarget minBits in
            let newTarget := if newTarget >? maxTarget then maxTarget else newTarget in
            Some (TargetToBits newTarget)
        end
    end.

End retarget.

(** ** pos.go: the stake ledger *)

Module pos.

(** [StakeManager.Stakes]; the ledger owns its [*Stake] records, so a map
    of values has the same behaviour. *)
Abbreviation StakeManager := (gmap string Stake).

Definition NewStakeManager : StakeManager := ∅.

(** [AddStake]. *)
Definition AddStake (sm : StakeManager) (address : string) (amount : float)
    (height : Z) : StakeManager :=
  match sm !! address with
  | Some s =>
      <[address := {| StakeAddress := StakeAddress s;
                      StakeAmount := (StakeAmount s + amount)%float;
                      BlockHeight := BlockHeight s |}]> sm
  | None =>
      <[address := {| StakeAddress := address; StakeAmount := amount;
                      BlockHeight := height |}]> sm
  end.

(** [RemoveStake]. *)
Definition RemoveStake (sm : StakeManager) (address : string) (amount : float)
    : StakeManager * option error :=
  match sm !! address with
  | None => (sm, Some (ErrNoStake address))
  | Some s =>
      if (StakeAmount s <? amount)%float
      then (sm, Some (ErrInsufficientStake (StakeAmount s) amount))
      else
        let left := (StakeAmount s - amount)%float in
        if (left <? 0x1.5798ee2308c3ap-27)%float   (* 0.00000001 *)
        then (delete address sm, None)
        else (<[address := {| StakeAddress := StakeAddress s; StakeAmount := left;
                              BlockHeight := BlockHeight s |}]> sm, None)
  end.

(** [GetStake]. *)
Definition GetStake (sm : StakeManager) (address : string) : float :=
  match sm !! address with
  | Some s => StakeAmount s
  | None => 0%float
  end.

(** [GetTotalStaked]; [order] is the order in which the run time walks the
    map, which the language leaves open. *)
Definition GetTotalStaked (order : list (string * Stake)) : float :=
  fold_left (fun total e => (total + StakeAmount (snd e))%float) order 0%float.

(** The first loop of [CalcPOSRewards]. *)
Definition eligibleStaked (order : list (string * Stake)) (minThreshold : float) : float :=
  fold_left (fun acc e =>
               if (minThreshold <=? StakeAmount (snd e))%float
               then (acc + StakeAmount (snd e))%float else acc)
            order 0%float.

(** [CalcPOSRewards]; [order1] and [order2] are the orders in which the two
    loops walk the map. *)
Definition CalcPOSRewards (order1 order2 : list (string * Stake))
    (totalReward minThreshold : float) : list TxOutput :=
  let eligible := eligibleStaked order1 minThreshold in
  if (eligible =? 0)%float then []
  else
    fold_left (fun outputs e =>
                 let '(addr, s) := e in
                 if (StakeAmount s <? minThreshold)%float then outputs
                 else
                   let share := (StakeAmount s / eligible)%float in
                   let reward := (totalReward * share)%float in
                   if (0x1.5798ee2308c3ap-27 <? reward)%float   (* 0.00000001 *)
                   then outputs ++ [ {| Address := addr; OutAmount := reward |} ]
                   else outputs)
              order2 [].

End pos.

(** ** store.go: the bucket store *)

Module storage.

(** The errors of the read operations. *)
Inductive readError : Type :=
| ErrBlockNotFoundAt (height : Z)
| ErrBlockNotFound (hash : string)
| ErrBlockDataMissing (hash : string)
| ErrTxNotFound (txid : string).

Section Store.

Context {enc : Encoding}.

Abbreviation Bucket := (gmap string (list byte)).

(** The six buckets of the database file.  [healthy] is the environment's
    part of a write transaction: whether the file accepts the commit. *)
Record Store : Type := mkStore {
  blocks : Bucket;        (* height (8 bytes BE) -> JSON block *)
  block_hashes : Bucket;  (* hash -> height *)
  balances : Bucket;      (* address -> JSON float *)
  stakes : Bucket;        (* address -> JSON stake *)
  tx_index : Bucket;      (* txid -> height *)
  meta : Bucket;          (* best_height, total_minted *)
  healthy : bool
}.

Definition metaBestHeight : string := "best_height".
Definition metaTotalMinted : string := "total_minted".

(** [NewStore] on an empty data directory: the buckets are created empty. *)
Definition NewStore (healthy : bool) : Store :=
  {| blocks := ∅; block_hashes := ∅; balances := ∅; stakes := ∅;
     tx_index := ∅; meta := ∅; healthy := healthy |}.

(** bbolt's limits on a key and a value. *)
Definition MaxKeySize : Z := 32768.
Definition MaxValueSize : Z := 2 ^ 31 - 2.

(** [Bucket.Put] in a write transaction. *)
Definition Put (b : Bucket) (k : string) (value : list byte) : result Bucket :=
  if (String.length k =? 0)%nat then Err ErrKeyRequired
  else if MaxKeySize <? Z.of_nat (String.length k) then Err ErrKeyTooLarge
  else if MaxValueSize <? Z.of_nat (length value) then Err ErrValueTooLarge
  else Ok (<[k := value]> b).

(** [Bucket.Delete] in a write transaction; a missing key is no error. *)
Definition Delete (b : Bucket) (k : string) : Bucket := delete k b.

(** [heightKey]: 8 bytes, big-endian. *)
Definition heightKey (h : Z) : list byte :=
  map (fun i : Z => byte_of_Z (Z.shiftr h (8 * (7 - i)))) [0; 1; 2; 3; 4; 5; 6; 7].

(** [keyToHeight]: [binary.BigEndian.Uint64]. *)
Definition keyToHeight (b : list byte) : Z := SetBytes (firstn 8 b).

(** [floatToBytes]. *)
Definition floatToBytes (f : float) : list byte := json.orNil (json.MarshalFloat f).

(** [GetBestHeight]: -1 on a store without blocks. *)
Definition GetBestHeight (s : Store) : Z :=
  match meta s !! metaBestHeight with
  | Some v => i64 (keyToHeight v)
  | None => -1
  end.

(** [GetBlockCount]. *)
Definition GetBlockCount (s : Store) : Z :=
  let h := GetBestHeight s in
  if h <? 0 then 0 else u64 (u64 h + 1).

(** [HasData]. *)
Definition HasData (s : Store) : bool := 0 <=? GetBestHeight s.

(** [BlockCommit]: all state changes for a new block. *)
Record BlockCommit : Type := mkBlockCommit {
  cHeight : Z;
  cHash : string;
  cBlockJSON : list byte;
  cBalances : gmap string float;               (* address -> new balance *)
  cStakes : gmap string (option (list byte));  (* address -> JSON stake, nil = delete *)
  cTxIDs : list string;
  cTotalMinted : float
}.

(** The body of the update function of [CommitBlock], bucket by bucket. *)
Definition putBalances (bb : Bucket) (m : gmap string float) : result Bucket :=
  map_fold (fun addr bal acc => bind acc (fun b => Put b addr (floatToBytes bal)))
           (Ok bb) m.

Definition putStakes (sb : Bucket) (m : gmap string (option (list byte))) : result Bucket :=
  map_fold (fun addr data acc =>
              bind acc (fun b =>
                match data with
                | None => Ok (Delete b addr)
                | Some d => Put b addr d
                end))
           (Ok sb) m.

Definition putTxIDs (tb : Bucket) (ids : list string) (hk : list byte) : result Bucket :=
  fold_left (fun acc txid => bind acc (fun b => Put b txid hk)) ids (Ok tb).

Definition commitBody (s : Store) (c : BlockCommit) : result Store :=
  (let hk := heightKey (cHeight c) in
   let_ok b1 := Put (blocks s) (string_of_bytes hk) (cBlockJSON c) in
   let_ok b2 := Put (block_hashes s) (cHash c) hk in
   let_ok bb := putBalances (balances s) (cBalances c) in
   let_ok sb := putStakes (stakes s) (cStakes c) in
   let_ok tb := putTxIDs (tx_index s) (cTxIDs c) hk in
   let_ok m1 := Put (meta s) metaBestHeight hk in
   let_ok m2 := Put m1 metaTotalMinted (floatToBytes (cTotalMinted c)) in
   Ok {| blocks := b1; block_hashes := b2; balances := bb; stakes := sb;
         tx_index := tb; meta := m2; healthy := healthy s |})%result.

(** [db.Update]: run the body on the transaction's view; an error of the
    body rolls back, and so does a failing write of the file. *)
Definition Update (s : Store) (body : Store -> result Store) : Store * option error :=
  match body s with
  | Err e => (s, Some e)
  | Ok s' => if healthy s then (s', None) else (s, Some ErrDiskWrite)
  end.

(** [CommitBlock]: atomically writes all changes for a new block. *)
Definition CommitBlock (s : Store) (c : BlockCommit) : Store * option error :=
  Update s (fun tx => commitBody tx c).

(** [GetBlockByHeight]. *)
Definition GetBlockByHeight (s : Store) (height : Z) : list byte + readError :=
  match blocks s !! string_of_bytes (heightKey height) with
  | None => inr (ErrBlockNotFoundAt height)
  | Some v => inl v
  end.

(** [GetBlockByHash]: the hash index gives the key of the block. *)
Definition GetBlockByHash (s : Store) (hash : string) : list byte + readError :=
  match block_hashes s !! hash with
  | None => inr (ErrBlockNotFound hash)
  | Some hk =>
      match blocks s !! string_of_bytes hk with
      | None => inr (ErrBlockDataMissing hash)
      | Some v => inl v
      end
  end.

(** [GetTxBlockHeight]. *)
Definition GetTxBlockHeight (s : Store) (txid : string) : Z + readError :=
  match tx_index s !! txid with
  | None => inr (ErrTxNotFound txid)
  | Some v => inl (keyToHeight v)
  end.

(** [for h := start; h <= uint64(best); h++ { ... }] of [GetRecentBlocks],
    with the iterations still to run as fuel; a missing height is skipped. *)
Fixpoint recentLoop (fuel : nat) (b : Bucket) (h best : Z) (acc : list (list byte))
    : list (list byte) :=
  match fuel with
  | O => acc
  | S fuel =>
      if h <=? best then
        match b !! string_of_bytes (heightKey h) with
        | None => recentLoop fuel b (u64 (h + 1)) best acc
        | Some v => recentLoop fuel b (u64 (h + 1)) best (acc ++ [v])
        end
      else acc
  end.

(** [GetRecentBlocks]: the last [count] blocks; its error is always nil. *)
Definition GetRecentBlocks (s : Store) (count : Z) : list (list byte) :=
  let best := GetBestHeight s in
  if best <? 0 then []
  else
    let start := if count <=? u64 best then u64 (u64 best - count + 1) else 0 in
    recentLoop (Z.to_nat (u64 best - start + 1)) (blocks s) start (u64 best) [].

(** [GetAllStakesRaw]: a copy of the stakes bucket. *)
Definition GetAllStakesRaw (s : Store) : Bucket := stakes s.

End Store.
End storage.

(** ** config.go: the network parameters the consensus code reads *)

Record NetworkConfig : Type := mkNetworkConfig {
  Ticker : string;
  BlockTimeSeconds : Z;
  InitialReward : float;
  POWRewardShare : float;
  POSRewardShare : float;
  HalvingInterval : Z;            (* uint64 *)
  MaxSupply : float;
  DifficultyAdjustInterval : Z;   (* uint64 *)
  MinDifficultyBits : Z;          (* uint32 *)
  MinStakeAmount : float;
  MaxBlockSize : Z;               (* uint64 *)
  MaxBlockTransactions : Z;       (* uint64 *)
  POSMinThreshold : float;
  DifficultyEpochBlocks : Z       (* uint64 *)
}.

(** ** chain.go: the chain state machine *)

Module chain.
Section Chain.

Context {enc : Encoding}.

Import difficulty.

(** [Blockchain]: the chain state (the lock and the data directory are not
    part of the sequential behaviour). *)
Record Blockchain : Type := mkBlockchain {
  Config : NetworkConfig;
  Store : storage.Store;
  Balances : gmap string float;
  Stakes : pos.StakeManager;
  Mempool : list Transaction;
  TotalMinted : float;
  lastBlock : option Block
}.

(** [bc.Balances[addr]]: a missing key reads as zero. *)
Definition balanceOf (m : gmap string float) (addr : string) : float :=
  default 0%float (m !! addr).

(** [collectTxIDs]. *)
Definition collectTxIDs (b : Block) : list string := map TxID (Transactions b).

(** [CreateGenesisBlock]; [ts] is the Unix time of the parsed
    [GenesisTimestamp] (or of the clock, when it does not parse). *)
Definition CreateGenesisBlock (cfg : NetworkConfig) (ts : Z) : Block :=
  let coinbase := {| TxID := ""; TxType := "coinbase"; From := ""; To := "genesis";
                     Amount := 0; Fee := 0; TxTimestamp := ts; Signature := "";
                     Outputs := [ {| Address := "genesis"; OutAmount := 0 |} ] |} in
  let coinbase := {| TxID := block.ComputeTxID coinbase; TxType := TxType coinbase;
                     From := From coinbase; To := To coinbase; Amount := Amount coinbase;
                     Fee := Fee coinbase; TxTimestamp := TxTimestamp coinbase;
                     Signature := Signature coinbase; Outputs := Outputs coinbase |} in
  let merkle := block.ComputeMerkleRoot [coinbase] in
  let header := {| Version := 1; PrevHash := string_of_bytes (repeat "0"%byte 64);
                   MerkleRoot := merkle; Timestamp := ts;
                   Bits := MinDifficultyBits cfg; Nonce := 0; Height := 0 |} in
  {| Header := header; Transactions := [coinbase]; Hash := block.ComputeHash header |}.

(** [NewBlockchain] on an empty data directory: the store has no data and
    there is no legacy file to migrate, so the genesis block is built and
    committed; a failing commit is fatal ([Err]). *)
Definition NewBlockchain (cfg : NetworkConfig) (ts : Z) (store : storage.Store)
    : result Blockchain :=
  let genesis := CreateGenesisBlock cfg ts in
  let blockJSON := json.orNil (json.MarshalBlock genesis) in
  let commit := {| storage.cHeight := 0; storage.cHash := Hash genesis;
                   storage.cBlockJSON := blockJSON; storage.cBalances := ∅;
                   storage.cStakes := ∅; storage.cTxIDs := collectTxIDs genesis;
                   storage.cTotalMinted := 0 |} in
  match storage.CommitBlock store commit with
  | (_, Some e) => Err e
  | (store', None) =>
      Ok {| Config := cfg; Store := store'; Balances := ∅;
            Stakes := pos.NewStakeManager; Mempool := []; TotalMinted := 0;
            lastBlock := Some genesis |}
  end.

(** [GetBestHeight]. *)
Definition GetBestHeight (bc : Blockchain) : Z :=
  let h := storage.GetBestHeight (Store bc) in
  if h <? 0 then 0 else u64 h.

(** The halving loop of [CalcBlockReward]:
    [for i := uint64(0); i < halvings; i++ { reward /= 2 }], with the
    iterations still to run as fuel. *)
Fixpoint halvingLoop (fuel : nat) (i halvings : Z) (reward : float) : float :=
  match fuel with
  | O => reward
  | S fuel =>
      if i <? halvings then halvingLoop fuel (i + 1) halvings (reward / 2)%float
      else reward
  end.

(** [CalcBlockReward]; [None] is the run-time panic of an integer division by
    zero. *)
Definition CalcBlockReward (bc : Blockchain) (height : Z) : option float :=
  if (MaxSupply (Config bc) <=? TotalMinted bc)%float then Some 0%float
  else if HalvingInterval (Config bc) =? 0 then None
  else
    let halvings := height / HalvingInterval (Config bc) in
    let reward := InitialReward (Config bc) in
    let reward := halvingLoop (Z.to_nat halvings) 0 halvings reward in
    if (reward <? 0x1.5798ee2308c3ap-27)%float   (* 0.00000001 *)
    then Some 0%float
    else
      let remaining := (MaxSupply (Config bc) - TotalMinted bc)%float in
      Some (if (remaining <? reward)%float then remaining else reward).

Definition setMempool (bc : Blockchain) (mp : list Transaction) : Blockchain :=
  {| Config := Config bc; Store := Store bc; Balances := Balances bc;
     Stakes := Stakes bc; Mempool := mp; TotalMinted := TotalMinted bc;
     lastBlock := lastBlock bc |}.

(** [AddToMempool]: the two guarded blocks in turn, then the append. *)
Definition AddToMempool (bc : Blockchain) (tx : Transaction) : Blockchain * option error :=
  let transferCheck :=
    if (TxType tx =? "transfer")%string then
      if (balanceOf (Balances bc) (From tx) <? Amount tx + Fee tx)%float
      then Some (ErrInsufficientBalance (balanceOf (Balances bc) (From tx))
                                        (Amount tx + Fee tx)%float)
      else None
    else None in
  match transferCheck with
  | Some e => (bc, Some e)
  | None =>
      let stakeCheck :=
        if (TxType tx =? "stake")%string then
          let available :=
            (balanceOf (Balances bc) (From tx) - pos.GetStake (Stakes bc) (From tx))%float in
          if (available <? Amount tx)%float then Some ErrInsufficientAvailable
          else if (Amount tx <? MinStakeAmount (Config bc))%float
          then Some (ErrMinimumStake (MinStakeAmount (Config bc)))
          else
            let totalStake := (pos.GetStake (Stakes bc) (From tx) + Amount tx)%float in
            if (totalStake <? POSMinThreshold (Config bc))%float
            then Some (ErrTotalStakeBelowThreshold (POSMinThreshold (Config bc)))
            else None
        else None in
      match stakeCheck with
      | Some e => (bc, Some e)
      | None => (setMempool bc (Mempool bc ++ [tx]), None)
      end
  end.

(** [validateBlock]: [None] when the block is accepted. *)
Definition validateBlock (bc : Blockchain) (b : Block) : option error :=
  let expectedHeight := storage.GetBlockCount (Store bc) in
  if negb (Height (Header b) =? expectedHeight)
  then Some (ErrBadHeight expectedHeight (Height (Header b)))
  else if (0 <? expectedHeight)
          && match lastBlock bc with
             | Some last => negb (PrevHash (Header b) =? Hash last)%string
             | None => false
             end
  then Some ErrBadPrevHash
  else
    let computed := block.ComputeHash (Header b) in
    if negb (Hash b =? computed)%string then Some (ErrBadHash computed (Hash b))
    else if negb (CheckProofOfWork (Hash b) (Bits (Header b)))
    then Some ErrInsufficientProofOfWork
    else if MaxBlockTransactions (Config bc) <? Z.of_nat (length (Transactions b))
    then Some (ErrTooManyTransactions (Z.of_nat (length (Transactions b)))
                                      (MaxBlockTransactions (Config bc)))
    else
      let blockData := json.orNil (json.MarshalBlock b) in
      if MaxBlockSize (Config bc) <? Z.of_nat (length blockData)
      then Some (ErrBlockTooLarge (Z.of_nat (length blockData)) (MaxBlockSize (Config bc)))
      else
        let floorBits := ProgressiveDifficultyFloor (Height (Header b))
                           (DifficultyEpochBlocks (Config bc))
                           (MinDifficultyBits (Config bc)) in
        let blockTarget := BitsToTarget (Bits (Header b)) in
        let floorTarget := BitsToTarget floorBits in
        if blockTarget >? floorTarget
        then Some (ErrBelowProgressiveFloor (Height (Header b)))
        else None.

(** The state the transaction loop of [AddBlock] works on. *)
Record Applied : Type := mkApplied {
  aBalances : gmap string float;
  aStakes : pos.StakeManager;
  changedBalances : gmap string float;
  changedStakes : gmap string (option (list byte));
  blockMinted : float
}.

(** [bc.Balances[addr] = bal; changedBalances[addr] = bc.Balances[addr]]. *)
Definition setBalance (st : Applied) (addr : string) (bal : float) : Applied :=
  {| aBalances := <[addr := bal]> (aBalances st); aStakes := aStakes st;
     changedBalances := <[addr := bal]> (changedBalances st);
     changedStakes := changedStakes st; blockMinted := blockMinted st |}.

(** One output of a coinbase or pos_reward transaction. *)
Definition mintOutput (st : Applied) (out : TxOutput) : Applied :=
  let st := setBalance st (Address out)
              (balanceOf (aBalances st) (Address out) + OutAmount out)%float in
  {| aBalances := aBalances st; aStakes := aStakes st;
     changedBalances := changedBalances st; changedStakes := changedStakes st;
     blockMinted := (blockMinted st + OutAmount out)%float |}.

(** [json.Marshal] of a stake record, [nil] when it fails. *)
Definition stakeJSON (s : Stake) : option (list byte) :=
  match json.MarshalStake s with
  | Some js => Some (bytes_of_string js)
  | None => None
  end.

Definition setStakes (st : Applied) (sm : pos.StakeManager)
    (entry : option (list byte)) (addr : string) : Applied :=
  {| aBalances := aBalances st; aStakes := sm;
     changedBalances := changedBalances st;
     changedStakes := <[addr := entry]> (changedStakes st);
     blockMinted := blockMinted st |}.

(** The body of [for _, tx := range block.Transactions { switch tx.Type ... }]. *)
Definition applyTx (height : Z) (st : Applied) (tx : Transaction) : Applied :=
  if (TxType tx =? "coinbase")%string then fold_left mintOutput (Outputs tx) st
  else if (TxType tx =? "pos_reward")%string then fold_left mintOutput (Outputs tx) st
  else if (TxType tx =? "transfer")%string then
    let bal := (balanceOf (aBalances st) (From tx) - (Amount tx + Fee tx))%float in
    let m := <[From tx := bal]> (aBalances st) in
    let m := <[To tx := (balanceOf m (To tx) + Amount tx)%float]> m in
    {| aBalances := m; aStakes := aStakes st;
       changedBalances :=
         <[To tx := balanceOf m (To tx)]>
           (<[From tx := balanceOf m (From tx)]> (changedBalances st));
       changedStakes := changedStakes st; blockMinted := blockMinted st |}
  else if (TxType tx =? "stake")%string then
    let st := setBalance st (From tx)
                (balanceOf (aBalances st) (From tx) - Amount tx)%float in
    let sm := pos.AddStake (aStakes st) (From tx) (Amount tx) height in
    setStakes st sm
      match sm !! From tx with Some s => stakeJSON s | None => None end
      (From tx)
  else if (TxType tx =? "unstake")%string then
    let sm := fst (pos.RemoveStake (aStakes st) (From tx) (Amount tx)) in
    let st := setBalance st (From tx)
                (balanceOf (aBalances st) (From tx) + Amount tx)%float in
    setStakes st sm
      match sm !! From tx with Some s => stakeJSON s | None => None end
      (From tx)
  else st.

(** [processed[tx.TxID] = true] for every transaction of the block. *)
Definition processedOf (b : Block) : gmap string bool :=
  fold_left (fun m tx => <[TxID tx := true]> m) (Transactions b) ∅.

(** [AddBlock]. *)
Definition AddBlock (bc : Blockchain) (b : Block) : Blockchain * option error :=
  match validateBlock bc b with
  | Some err => (bc, Some (ErrValidationFailed err))
  | None =>
      let st := fold_left (applyTx (Height (Header b))) (Transactions b)
                  {| aBalances := Balances bc; aStakes := Stakes bc;
                     changedBalances := ∅; changedStakes := ∅; blockMinted := 0 |} in
      let totalMinted := (TotalMinted bc + blockMinted st)%float in
      let blockJSON := json.orNil (json.MarshalBlock b) in
      let commit := {| storage.cHeight := Height (Header b); storage.cHash := Hash b;
                       storage.cBlockJSON := blockJSON;
                       storage.cBalances := changedBalances st;
                       storage.cStakes := changedStakes st;
                       storage.cTxIDs := collectTxIDs b;
                       storage.cTotalMinted := totalMinted |} in
      match storage.CommitBlock (Store bc) commit with
      | (store', Some err) =>
          ({| Config := Config bc; Store := store'; Balances := aBalances st;
              Stakes := aStakes st; Mempool := Mempool bc; TotalMinted := totalMinted;
              lastBlock := lastBlock bc |},
           Some (ErrDbCommitFailed err))
      | (store', None) =>
          let processed := processedOf b in
          let remaining :=
            List.filter (fun tx => negb (default false (processed !! TxID tx))) (Mempool bc) in
          ({| Config := Config bc; Store := store'; Balances := aBalances st;
              Stakes := aStakes st; Mempool := remaining; TotalMinted := totalMinted;
              lastBlock := Some b |},
           None)
      end
  end.

(** [GetBlockCount]. *)
Definition GetBlockCount (bc : Blockchain) : Z := storage.GetBlockCount (Store bc).

(** [GetBalance]. *)
Definition GetBalance (bc : Blockchain) (address : string) : float :=
  balanceOf (Balances bc) address.

(** [GetTotalMinted]. *)
Definition GetTotalMinted (bc : Blockchain) : float := TotalMinted bc.

(** [GetBestBlock]. *)
Definition GetBestBlock (bc : Blockchain) : option Block := lastBlock bc.

End Chain.
End chain.

(** ** node.go: what a peer's messages do to the chain *)

Module network.
Section Node.

Context {enc : Encoding}.

(** The ways the [block] case of [handleMessage] ends. *)
Inductive outcome : Type :=
| Ignored                  (* not above the local best height *)
| Rejected (err : error)   (* [AddBlock] failed; logged *)
| Relayed.                 (* added, and sent on to the other peers *)

(** The [block] case of [handleMessage], on the decoded block. *)
Definition handleBlock (bc : chain.Blockchain) (b : Block) : chain.Blockchain * outcome :=
  if Height (Header b) <=? chain.GetBestHeight bc then (bc, Ignored)
  else
    match chain.AddBlock bc b with
    | (bc', Some err) => (bc', Rejected err)
    | (bc', None) => (bc', Relayed)
    end.

(** The [tx] case of [handleMessage]: the error of [AddToMempool] is dropped. *)
Definition handleTx (bc : chain.Blockchain) (tx : Transaction) : chain.Blockchain :=
  fst (chain.AddToMempool bc tx).

End Node.
End network.

(** ** An encoding for worked examples

    Exact decimal expansions for numbers and plain quoting for strings.  On
    printable ASCII text without quotes, backslashes or HTML characters, and
    on numbers whose exact expansion has at most 15 significant digits (and
    lies in the fixed-notation range), this is what [json.Marshal] prints. *)

Module plain.

Definition stripZeros (s : string) : string :=
  let fix go (l : list ascii) : list ascii :=
    match l with
    | c :: rest => if (c =? "0")%char then go rest else l
    | [] => []
    end in
  string_of_list_ascii (rev (go (rev (list_ascii_of_string s)))).

(** The digits of [m / 2^k], exactly. *)
Definition dyadic (m : Z) (k : Z) : string :=
  let scaled := m * 5 ^ k in
  let ip := scaled / 10 ^ k in
  let fp := scaled mod 10 ^ k in
  if fp =? 0 then json.FormatInt ip
  else
    let digits := json.FormatInt (10 ^ k + fp) in
    (json.FormatInt ip +:+ "." +:+ stripZeros (String.substring 1 (String.length digits) digits))%string.

Definition FormatFloat (f : float) : option string :=
  match Prim2SF f with
  | S754_zero false => Some "0"%string
  | S754_zero true => Some "-0"%string
  | S754_infinity _ => None
  | S754_nan => None
  | S754_finite s m e =>
      let body := if 0 <=? e then json.FormatInt (Z.pos m * 2 ^ e) else dyadic (Z.pos m) (- e) in
      Some (if s then ("-" +:+ body)%string else body)
  end.

Definition Quote (s : string) : string := (json.dq +:+ s +:+ json.dq)%string.

#[export] Instance encoding : Encoding := Build_Encoding FormatFloat Quote.

End plain.

#[global] Existing Instance plain.encoding.

(** The testnet parameters. *)
Definition testnet : NetworkConfig :=
  {| Ticker := "tDVC"; BlockTimeSeconds := 60; InitialReward := 50;
     POWRewardShare := 0.6; POSRewardShare := 0.4; HalvingInterval := 100;
     MaxSupply := 1000000; DifficultyAdjustInterval := 10;
     MinDifficultyBits := 0x1F00FFFF; MinStakeAmount := 1;
     MaxBlockSize := 8 * 1024 * 1024; MaxBlockTransactions := 10000;
     POSMinThreshold := 10; DifficultyEpochBlocks := 1000 |}.

(** * Worked inputs *)

(** A header to run the codec on: version 2, height 7, a short previous hash
    (padded on the left) and an over-long Merkle root (cut to 32 bytes). *)
Definition sampleHeader : BlockHeader :=
  {| Version := 2; PrevHash := "00ff"; 
     MerkleRoot := "000102030405060708090a0b0c0d0e0f101112131415161718191a1b1c1d1e1f2021";
     Timestamp := 1771891260; Bits := 0x1F00FFFF; Nonce := 42; Height := 7 |}.

(** The chain state [NewBlockchain] starts from, before anything is
    committed: an empty store, no balances, no tip. *)
Definition emptyChain (cfg : NetworkConfig) (healthy : bool) : chain.Blockchain :=
  {| chain.Config := cfg; chain.Store := storage.NewStore healthy;
     chain.Balances := ∅; chain.Stakes := pos.NewStakeManager; chain.Mempool := [];
     chain.TotalMinted := 0; chain.lastBlock := None |}.

(** ** The miner's nonce search, to build blocks the chain accepts *)

Module miner.

(** [compactToBig]. *)
Definition compactToBig (compact : Z) : Z :=
  let mantissa := Z.land compact 0x007fffff in
  let exponent := Z.shiftr compact 24 in
  if exponent <=? 3
  then Z.shiftr mantissa (8 * (3 - exponent))
  else Z.shiftl mantissa (8 * (exponent - 3)).

(** [checkPoW]: a decoding error is not looked at. *)
Definition checkPoW (hash : string) (bits : Z) : bool :=
  let target := compactToBig bits in
  let hashBytes := fst (hex.DecodeString hash) in
  SetBytes hashBytes <=? target.

(** [decodeHexPad]. *)
Definition decodeHexPad (s : string) (size : nat) : list byte :=
  let b := fst (hex.DecodeString s) in
  if (length b <? size)%nat
  then repeat x00 (size - length b) ++ b
  else firstn size b.

(** [appendU32] and [appendU64]: the bytes of the value, lowest first. *)
Definition appendU32 (buf : list byte) (v : Z) : list byte :=
  buf ++ [byte_of_Z v; byte_of_Z (Z.shiftr v 8); byte_of_Z (Z.shiftr v 16);
          byte_of_Z (Z.shiftr v 24)].

Definition appendU64 (buf : list byte) (v : Z) : list byte :=
  buf ++ [byte_of_Z v; byte_of_Z (Z.shiftr v 8); byte_of_Z (Z.shiftr v 16);
          byte_of_Z (Z.shiftr v 24); byte_of_Z (Z.shiftr v 32);
          byte_of_Z (Z.shiftr v 40); byte_of_Z (Z.shiftr v 48);
          byte_of_Z (Z.shiftr v 56)].

(** [computeHash] of the miner. *)
Definition computeHash (h : BlockHeader) : string :=
  let buf := [] in
  let buf := appendU32 buf (Version h) in
  let buf := buf ++ decodeHexPad (PrevHash h) 32 in
  let buf := buf ++ decodeHexPad (MerkleRoot h) 32 in
  let buf := appendU64 buf (u64 (Timestamp h)) in
  let buf := appendU32 buf (Bits h) in
  let buf := appendU64 buf (Nonce h) in
  let first := sha256.Sum256 buf in
  let second := sha256.Sum256 first in
  hex.EncodeToString second.

Definition setNonce (h : BlockHeader) (nonce : Z) : BlockHeader :=
  {| Version := Version h; PrevHash := PrevHash h; MerkleRoot := MerkleRoot h;
     Timestamp := Timestamp h; Bits := Bits h; Nonce := nonce; Height := Height h |}.

(** The search loop of [main], from [nonce] on, for at most [fuel] nonces:
    the template with the first nonce whose hash passes, and that hash.  The
    miner's [computeHash] builds the same bytes as [Serialize] and hashes
    them twice, so [block.ComputeHash] stands for it. *)
Fixpoint search (fuel : nat) (tmpl : Block) (nonce : Z) : option Block :=
  match fuel with
  | O => None
  | S fuel =>
      let header := setNonce (Header tmpl) nonce in
      let hash := block.ComputeHash header in
      if checkPoW hash (Bits header)
      then Some {| Header := header; Transactions := Transactions tmpl; Hash := hash |}
      else search fuel tmpl (nonce + 1)
  end.

End miner.

(** ** A short run of a development network *)

Module devnet.

(** The testnet parameters with the bits of a regression network: about
    every second hash passes. *)
Definition config : NetworkConfig :=
  {| Ticker := Ticker testnet; BlockTimeSeconds := BlockTimeSeconds testnet;
     InitialReward := InitialReward testnet; POWRewardShare := POWRewardShare testnet;
     POSRewardShare := POSRewardShare testnet; HalvingInterval := HalvingInterval testnet;
     MaxSupply := MaxSupply testnet;
     DifficultyAdjustInterval := DifficultyAdjustInterval testnet;
     MinDifficultyBits := 0x207fffff; MinStakeAmount := MinStakeAmount testnet;
     MaxBlockSize := MaxBlockSize testnet;
     MaxBlockTransactions := MaxBlockTransactions testnet;
     POSMinThreshold := POSMinThreshold testnet;
     DifficultyEpochBlocks := DifficultyEpochBlocks testnet |}.

Definition genesisTime : Z := 1771891200.

(** The chain after the bootstrap. *)
Definition chain0 : chain.Blockchain := Eval vm_compute in
  match chain.NewBlockchain config genesisTime (storage.NewStore true) with
  | Ok bc => bc
  | Err _ => emptyChain config true
  end.

(** A template on top of [bc] as a miner receives it, and the mined block. *)
Definition template (bc : chain.Blockchain) (txs : list Transaction) (now : Z) : Block :=
  {| Header := {| Version := 2;
                  PrevHash := match chain.lastBlock bc with
                              | Some last => Hash last
                              | None => ""
                              end;
                  MerkleRoot := block.ComputeMerkleRoot txs; Timestamp := now;
                  Bits := MinDifficultyBits (chain.Config bc); Nonce := 0;
                  Height := storage.GetBlockCount (chain.Store bc) |};
     Transactions := txs; Hash := "" |}.

Definition mined (bc : chain.Blockchain) (txs : list Transaction) (now : Z) : Block :=
  match miner.search 64 (template bc txs now) 0 with
  | Some b => b
  | None => template bc txs now
  end.

(** Block 1 pays 50 to alice. *)
Definition block1 : Block := Eval vm_compute in
  mined chain0 [block.NewCoinbaseTransaction "alice" 50 1 (genesisTime + 60)]
        (genesisTime + 60).

Definition chain1 : chain.Blockchain := Eval vm_compute in fst (chain.AddBlock chain0 block1).

(** alice sends 10 to bob, with a fee of one half. *)
Definition payment : Transaction := Eval vm_compute in
  let tx := {| TxID := ""; TxType := "transfer"; From := "alice"; To := "bob";
               Amount := 10; Fee := 0.5; TxTimestamp := genesisTime + 90;
               Signature := "3045"; Outputs := [] |} in
  {| TxID := block.ComputeTxID tx; TxType := TxType tx; From := From tx; To := To tx;
     Amount := Amount tx; Fee := Fee tx; TxTimestamp := TxTimestamp tx;
     Signature := Signature tx; Outputs := Outputs tx |}.

(** The payment submitted twice. *)
Definition chain1a : chain.Blockchain := Eval vm_compute in fst (chain.AddToMempool chain1 payment).
Definition chain1b : chain.Blockchain := Eval vm_compute in fst (chain.AddToMempool chain1a payment).

(** Block 2 includes the payment once. *)
Definition block2 : Block := Eval vm_compute in
  mined chain1b [block.NewCoinbaseTransaction "alice" 50 2 (genesisTime + 120); payment]
        (genesisTime + 120).

Definition chain2 : chain.Blockchain := Eval vm_compute in fst (chain.AddBlock chain1b block2).

(** The chain after the bootstrap, with a disk that refuses the next write. *)
Definition chain0_disk_full : chain.Blockchain :=
  let st := chain.Store chain0 in
  {| chain.Config := chain.Config chain0;
     chain.Store := {| storage.blocks := storage.blocks st;
                       storage.block_hashes := storage.block_hashes st;
                       storage.balances := storage.balances st;
                       storage.stakes := storage.stakes st;
                       storage.tx_index := storage.tx_index st;
                       storage.meta := storage.meta st; storage.healthy := false |};
     chain.Balances := chain.Balances chain0; chain.Stakes := chain.Stakes chain0;
     chain.Mempool := chain.Mempool chain0; chain.TotalMinted := chain.TotalMinted chain0;
     chain.lastBlock := chain.lastBlock chain0 |}.

(** What [AddBlock] returns for block 1 on that chain. *)
Definition chain0_failed : chain.Blockchain := Eval vm_compute in
  fst (chain.AddBlock chain0_disk_full block1).

End devnet.

(** The genesis block of the testnet and the chain of its bootstrap. *)
Definition testnetGenesis : Block := Eval vm_compute in
  chain.CreateGenesisBlock testnet 1771891200.

Definition testnetChain0 : chain.Blockchain := Eval vm_compute in
  match chain.NewBlockchain testnet 1771891200 (storage.NewStore true) with
  | Ok bc => bc
  | Err _ => emptyChain testnet true
  end.

(** * Vocabulary of the properties *)

(** The number a little-endian byte string denotes. *)
Definition le_value (l : list byte) : Z :=
  fold_right (fun b acc => byte_to_Z b + 256 * acc) 0 l.

(** [s[off : off+len]]. *)
Definition slice (off len : nat) (l : list byte) : list byte := firstn len (skipn off l).

(** The hex string decodes, without error, to exactly 32 bytes. *)
Definition decodes_to_32_bytes (hash : string) : Prop :=
  snd (hex.DecodeString hash) = true /\ length (fst (hex.DecodeString hash)) = 32%nat.

(** The four rejection conditions, in the words of the specification. *)
Definition rejected (bc : chain.Blockchain) (tx : Transaction) : bool :=
  let bal := chain.balanceOf (chain.Balances bc) (From tx) in
  let staked := pos.GetStake (chain.Stakes bc) (From tx) in
  ((TxType tx =? "transfer")%string && (bal <? Amount tx + Fee tx)%float)
  || ((TxType tx =? "stake")%string && (bal - staked <? Amount tx)%float)
  || ((TxType tx =? "stake")%string
        && (Amount tx <? MinStakeAmount (chain.Config bc))%float)
  || ((TxType tx =? "stake")%string
        && (staked + Amount tx <? POSMinThreshold (chain.Config bc))%float).

(** [r] halved [k] times. *)
Definition halved (k : nat) (r : float) : float := Nat.iter k (fun x => (x / 2)%float) r.

(** The reward formula, in the words of the specification. *)
Definition rewardFormula (bc : chain.Blockchain) (h : Z) : float :=
  let cfg := chain.Config bc in
  if (MaxSupply cfg <=? chain.TotalMinted bc)%float then 0%float
  else
    let base := halved (Z.to_nat (h / HalvingInterval cfg)) (InitialReward cfg) in
    if (base <? 0x1.5798ee2308c3ap-27)%float then 0%float
    else
      let left := (MaxSupply cfg - chain.TotalMinted bc)%float in
      if (left <? base)%float then left else base.

(** What is left to mint is no less than [r]. *)
Definition leaves_room (bc : chain.Blockchain) (r : float) : Prop :=
  (MaxSupply (chain.Config bc) <=? chain.TotalMinted bc)%float = false /\
  (MaxSupply (chain.Config bc) - chain.TotalMinted bc <? r)%float = false.

(** The txid of the transaction is not among the txids of the block. *)
Definition notIncluded (b : Block) (tx : Transaction) : bool :=
  negb (existsb (String.eqb (TxID tx)) (chain.collectTxIDs b)).

(** The header hash read as a big-endian number. *)
Definition hashValue (h : BlockHeader) : Z :=
  SetBytes (block.SHA256d (block.Serialize h)).

Section Staging.

Context {enc : Encoding}.

(** The state [AddBlock] has reached when it calls the store. *)
Definition applied (bc : chain.Blockchain) (b : Block) : chain.Applied :=
  fold_left (chain.applyTx (Height (Header b))) (Transactions b)
    {| chain.aBalances := chain.Balances bc; chain.aStakes := chain.Stakes bc;
       chain.changedBalances := ∅; chain.changedStakes := ∅; chain.blockMinted := 0 |}.

Definition commitOf (bc : chain.Blockchain) (b : Block) : storage.BlockCommit :=
  {| storage.cHeight := Height (Header b); storage.cHash := Hash b;
     storage.cBlockJSON := json.orNil (json.MarshalBlock b);
     storage.cBalances := chain.changedBalances (applied bc b);
     storage.cStakes := chain.changedStakes (applied bc b);
     storage.cTxIDs := chain.collectTxIDs b;
     storage.cTotalMinted := (chain.TotalMinted bc + chain.blockMinted (applied bc b))%float |}.

End Staging.

(** The three leading bytes of a number of at least three bytes. *)
Definition top3 (t : Z) : Z := t / 2 ^ (8 * (byte_len t - 3)).

Definition exponentOf (b : Z) : Z := Z.shiftr b 24.
Definition mantissaOf (b : Z) : Z := Z.land b 0x00ffffff.

(** A compact value in canonical form whose mantissa does not overflow: the
    leading byte of the 24-bit mantissa is neither zero (left-aligned) nor
    has its high bit set. *)
Definition canonical (b : Z) : Prop :=
  0 <= b < 2 ^ 32 /\ 2 ^ 16 <= mantissaOf b < 2 ^ 23.

(** No 32-bit compact value decodes to 2^2039 or more. *)
Definition targetLimit : Z := 2 ^ 2039.

(** The target decoded from the bits [TargetToBits] gives a target. *)
Definition redecode (t : Z) : Z := difficulty.BitsToTarget (difficulty.TargetToBits t).

(** * Properties *)

(** ** Bytes and machine integers *)

Lemma byte_to_Z_range (b : byte) : 0 <= byte_to_Z b < 256.
Proof.
  unfold byte_to_Z. pose proof (Byte.to_N_bounded b) as Hb. lia.
Qed.

Lemma u8_mod (z : Z) : u8 z = z mod 256.
Proof. unfold u8. change 0xff with (Z.ones 8). rewrite Z.land_ones by lia. reflexivity. Qed.

Lemma byte_to_Z_of_Z (z : Z) : byte_to_Z (byte_of_Z z) = z mod 256.
Proof.
  unfold byte_to_Z, byte_of_Z. rewrite u8_mod.
  pose proof (Z.mod_pos_bound z 256 ltac:(lia)) as Hr.
  destruct (Byte.of_N (Z.to_N (z mod 256))) as [b|] eqn:E.
  - apply Byte.to_of_N in E. rewrite E. lia.
  - apply Byte.of_N_None_iff in E. lia.
Qed.

Lemma byte_of_Z_to_Z (b : byte) : byte_of_Z (byte_to_Z b) = b.
Proof.
  unfold byte_of_Z, byte_to_Z. rewrite u8_mod.
  pose proof (Byte.to_N_bounded b) as Hb.
  rewrite Z.mod_small by lia. rewrite N2Z.id, Byte.of_to_N. reflexivity.
Qed.

(** ** The header pre-image *)

Lemma le_value_PutUint32 (v : Z) : 0 <= v < 2 ^ 32 -> le_value (block.PutUint32 v) = v.
Proof.
  intros Hv. unfold le_value, block.PutUint32. cbn [fold_right].
  rewrite !byte_to_Z_of_Z, !Z.shiftr_div_pow2 by lia.
  change (2 ^ 8) with 256. change (2 ^ 16) with 65536. change (2 ^ 24) with 16777216.
  change (2 ^ 32) with 4294967296 in Hv.
  Z.to_euclidean_division_equations. lia.
Qed.

Lemma le_value_PutUint64 (v : Z) : 0 <= v < 2 ^ 64 -> le_value (block.PutUint64 v) = v.
Proof.
  intros Hv. unfold le_value, block.PutUint64. cbn [fold_right].
  rewrite !byte_to_Z_of_Z, !Z.shiftr_div_pow2 by lia.
  change (2 ^ 8) with 256. change (2 ^ 16) with 65536. change (2 ^ 24) with 16777216.
  change (2 ^ 32) with 4294967296. change (2 ^ 40) with 1099511627776.
  change (2 ^ 48) with 281474976710656. change (2 ^ 56) with 72057594037927936.
  change (2 ^ 64) with 18446744073709551616 in Hv.
  Z.to_euclidean_division_equations. lia.
Qed.

Lemma padHashBytes_length (hexStr : string) : length (block.padHashBytes hexStr) = 32%nat.
Proof.
  unfold block.padHashBytes.
  destruct (Nat.ltb_spec (length (hex.DecodeString hexStr).1) 32) as [Hlt | Hge].
  - rewrite length_app, repeat_length. lia.
  - rewrite length_take. lia.
Qed.

Lemma i64_u64 (t : Z) : - 2 ^ 63 <= t < 2 ^ 63 -> i64 (u64 t) = t.
Proof.
  intros Ht. unfold i64, u64. rewrite Zmod_mod.
  change (2 ^ 64) with 18446744073709551616 in *.
  change (2 ^ 63) with 9223372036854775808 in *.
  destruct (Z.ltb_spec (t mod 18446744073709551616) 9223372036854775808);
    Z.to_euclidean_division_equations; lia.
Qed.

Lemma Serialize_concat (h : BlockHeader) :
  block.Serialize h
  = block.PutUint32 (Version h) ++ block.padHashBytes (PrevHash h)
      ++ block.padHashBytes (MerkleRoot h) ++ block.PutUint64 (u64 (Timestamp h))
      ++ block.PutUint32 (Bits h) ++ block.PutUint64 (Nonce h).
Proof. unfold block.Serialize. cbn [app]. rewrite <- !app_assoc. reflexivity. Qed.

Lemma slice_here (n : nat) (a rest : list byte) : length a = n -> slice 0 n (a ++ rest) = a.
Proof.
  intros <-. unfold slice. rewrite drop_0. apply take_app_length.
Qed.

Lemma slice_skip (off n : nat) (a rest : list byte) :
  (length a <= off)%nat -> slice off n (a ++ rest) = slice (off - length a) n rest.
Proof.
  intros Hle. unfold slice. rewrite drop_app_ge by exact Hle. reflexivity.
Qed.

(** C4 (as amended): the hash pre-image of a header is 88 bytes long
    (4 + 32 + 32 + 8 + 4 + 8, not 76): the version as a little-endian u32,
    the 32 bytes of the previous hash, the 32 bytes of the Merkle root, the
    timestamp as a little-endian two's-complement i64, the bits as a
    little-endian u32 and the nonce as a little-endian u64.  The height is
    not part of it, and the block hash is the hex form of SHA-256 applied
    twice to exactly these bytes. *)
Theorem header_preimage_is_88_bytes (h : BlockHeader) :
  header_in_range h ->
  let s := block.Serialize h in
  length s = 88%nat /\
  le_value (slice 0 4 s) = Version h /\
  slice 4 32 s = block.padHashBytes (PrevHash h) /\
  slice 36 32 s = block.padHashBytes (MerkleRoot h) /\
  i64 (le_value (slice 68 8 s)) = Timestamp h /\
  le_value (slice 76 4 s) = Bits h /\
  le_value (slice 80 8 s) = Nonce h /\
  (forall height : Z,
      block.Serialize (mkBlockHeader (Version h) (PrevHash h) (MerkleRoot h)
                                     (Timestamp h) (Bits h) (Nonce h) height) = s) /\
  block.ComputeHash h = hex.EncodeToString (sha256.Sum256 (sha256.Sum256 s)).
Proof.
  intros (Hv & Ht & Hb & Hn) s. subst s.
  pose proof (padHashBytes_length (PrevHash h)) as Lp.
  pose proof (padHashBytes_length (MerkleRoot h)) as Lm.
  assert (L4 : forall v, length (block.PutUint32 v) = 4%nat) by reflexivity.
  assert (L8 : forall v, length (block.PutUint64 v) = 8%nat) by reflexivity.
  rewrite Serialize_concat.
  repeat split.
  - rewrite !length_app, Lp, Lm, !L4, !L8. reflexivity.
  - rewrite slice_here by apply L4. apply le_value_PutUint32, Hv.
  - rewrite slice_skip by (rewrite L4; lia). rewrite L4. cbn [Nat.sub].
    apply slice_here, Lp.
  - rewrite slice_skip by (rewrite L4; lia). rewrite L4. cbn [Nat.sub].
    rewrite slice_skip by (rewrite Lp; lia). rewrite Lp. cbn [Nat.sub].
    apply slice_here, Lm.
  - rewrite slice_skip by (rewrite L4; lia). rewrite L4. cbn [Nat.sub].
    rewrite slice_skip by (rewrite Lp; lia). rewrite Lp. cbn [Nat.sub].
    rewrite slice_skip by (rewrite Lm; lia). rewrite Lm. cbn [Nat.sub].
    rewrite slice_here by apply L8.
    rewrite le_value_PutUint64 by (unfold u64; apply Z.mod_pos_bound; lia).
    apply i64_u64, Ht.
  - rewrite slice_skip by (rewrite L4; lia). rewrite L4. cbn [Nat.sub].
    rewrite slice_skip by (rewrite Lp; lia). rewrite Lp. cbn [Nat.sub].
    rewrite slice_skip by (rewrite Lm; lia). rewrite Lm. cbn [Nat.sub].
    rewrite slice_skip by (rewrite L8; lia). rewrite L8. cbn [Nat.sub].
    rewrite slice_here by apply L4. apply le_value_PutUint32, Hb.
  - rewrite slice_skip by (rewrite L4; lia). rewrite L4. cbn [Nat.sub].
    rewrite slice_skip by (rewrite Lp; lia). rewrite Lp. cbn [Nat.sub].
    rewrite slice_skip by (rewrite Lm; lia). rewrite Lm. cbn [Nat.sub].
    rewrite slice_skip by (rewrite L8; lia). rewrite L8. cbn [Nat.sub].
    rewrite slice_skip by (rewrite L4; lia). rewrite L4. cbn [Nat.sub].
    rewrite <- (app_nil_r (block.PutUint64 (Nonce h))).
    rewrite slice_here by apply L8. apply le_value_PutUint64, Hn.
  - intros height. rewrite Serialize_concat. reflexivity.
  - unfold block.ComputeHash, block.SHA256d. rewrite Serialize_concat. reflexivity.
Qed.

Lemma header_preimage_is_88_bytes_witness :
  header_in_range sampleHeader /\ length (block.Serialize sampleHeader) = 88%nat.
Proof.
  assert (R : header_in_range sampleHeader) by (unfold header_in_range; cbn; lia).
  split; [exact R |].
  exact (proj1 (header_preimage_is_88_bytes sampleHeader R)).
Defined.

(** C4 as stated fails: the pre-image of a header is not 76 bytes long. *)
Lemma header_preimage_is_not_76_bytes :
  header_in_range sampleHeader /\ length (block.Serialize sampleHeader) <> 76%nat.
Proof.
  split; [unfold header_in_range; cbn; lia |].
  vm_compute. discriminate.
Qed.

(** ** Proof of work on a hash string *)

(** The regulator's check refuses every string that is not the hex form of
    32 bytes, whatever the bits. *)
Lemma regulator_rejects_malformed_hash (hash : string) (bits : Z) :
  ~ decodes_to_32_bytes hash -> difficulty.CheckProofOfWork hash bits = false.
Proof.
  unfold decodes_to_32_bytes, difficulty.CheckProofOfWork. intros Hbad.
  destruct (hex.DecodeString hash) as [hashBytes ok]. cbn [fst snd] in Hbad.
  destruct ok; cbn [negb orb]; [| reflexivity].
  destruct (Nat.eqb_spec (length hashBytes) 32) as [E | _]; [| reflexivity].
  exfalso. apply Hbad. split; [reflexivity | exact E].
Qed.

(** C5 (the code departs from it): the check of pow.go has no length test;
    the one-byte hash string 00 decodes to a single zero byte and is accepted
    under the testnet bits. *)
Theorem pow_accepts_a_one_byte_hash :
  ~ decodes_to_32_bytes "00" /\
  hex.DecodeString "00" = ([x00], true) /\
  pow.CheckProofOfWork "00" 0x1F00FFFF = true /\
  difficulty.CheckProofOfWork "00" 0x1F00FFFF = false.
Proof.
  repeat split; try reflexivity.
  intros [_ Hlen]. vm_compute in Hlen. discriminate.
Qed.

(** ** Mempool admission *)


(** Transactions of the other kinds are never rejected. *)
Lemma other_kinds_are_admitted (bc : chain.Blockchain) (tx : Transaction) :
  TxType tx <> "transfer"%string -> TxType tx <> "stake"%string -> rejected bc tx = false.
Proof.
  intros Ht Hs. unfold rejected.
  apply String.eqb_neq in Ht. apply String.eqb_neq in Hs. rewrite Ht, Hs. reflexivity.
Qed.

(** ** The block reward *)

Lemma halvingLoop_halved (fuel : nat) (i n : Z) (r : float) :
  Z.of_nat fuel = n - i -> chain.halvingLoop fuel i n r = halved fuel r.
Proof.
  revert i r. induction fuel as [| fuel IH]; intros i r Hfuel; [reflexivity |].
  cbn [chain.halvingLoop].
  destruct (Z.ltb_spec i n) as [_ | Hge]; [| lia].
  rewrite IH by lia. unfold halved. rewrite Nat.iter_succ.
  exact (Nat.iter_swap fuel float (fun x => (x / 2)%float) r).
Qed.

Lemma halvingLoop_from_zero (n : Z) (r : float) :
  chain.halvingLoop (Z.to_nat n) 0 n r = halved (Z.to_nat n) r.
Proof.
  destruct (Z.le_gt_cases n 0) as [Hle | Hgt].
  - replace (Z.to_nat n) with O by lia. reflexivity.
  - apply halvingLoop_halved. lia.
Qed.

(** C6: with a non-zero halving interval, [CalcBlockReward] returns the
    reward of the formula: zero once the supply is exhausted, else the
    initial reward halved (h / halving_interval) times, zero below 10^-8, and
    at most what is left to mint.  With an initial reward of 50, a halving
    interval of 100 and room left, the reward is exactly 25 at height 100 and
    exactly 12.5 at height 200. *)
Theorem block_reward_formula (bc : chain.Blockchain) (h : Z) :
  HalvingInterval (chain.Config bc) <> 0 ->
  chain.CalcBlockReward bc h = Some (rewardFormula bc h) /\
  (InitialReward (chain.Config bc) = 50%float ->
   HalvingInterval (chain.Config bc) = 100 ->
   leaves_room bc 25 -> leaves_room bc 12.5 ->
   chain.CalcBlockReward bc 100 = Some 25%float /\
   chain.CalcBlockReward bc 200 = Some 12.5%float).
Proof.
  intros Hnz.
  assert (General : forall k, chain.CalcBlockReward bc k = Some (rewardFormula bc k)).
  { intros k. unfold chain.CalcBlockReward, rewardFormula.
    destruct (MaxSupply (chain.Config bc) <=? chain.TotalMinted bc)%float; [reflexivity |].
    destruct (Z.eqb_spec (HalvingInterval (chain.Config bc)) 0) as [E | _]; [contradiction |].
    rewrite halvingLoop_from_zero.
    destruct (_ <? 0x1.5798ee2308c3ap-27)%float; reflexivity. }
  split; [apply General |].
  intros Hinit Hint [Hsup Hroom25] [_ Hroom12].
  rewrite !General. unfold rewardFormula.
  rewrite Hsup, Hinit, Hint.
  change (Z.to_nat (100 / 100)) with 1%nat. change (Z.to_nat (200 / 100)) with 2%nat.
  change (halved 1 50) with 25%float. change (halved 2 50) with 12.5%float.
  change (25 <? 0x1.5798ee2308c3ap-27)%float with false.
  change (12.5 <? 0x1.5798ee2308c3ap-27)%float with false.
  cbv iota. rewrite Hroom25, Hroom12. split; reflexivity.
Qed.

Lemma block_reward_formula_witness :
  chain.CalcBlockReward (emptyChain testnet true) 100 = Some 25%float /\
  chain.CalcBlockReward (emptyChain testnet true) 200 = Some 12.5%float.
Proof.
  assert (Hnz : HalvingInterval (chain.Config (emptyChain testnet true)) <> 0)
    by (vm_compute; discriminate).
  destruct (block_reward_formula (emptyChain testnet true) 100 Hnz) as [_ Hpart].
  apply Hpart; try reflexivity; split; reflexivity.
Defined.

(** ** The store: what a commit leaves behind *)

Ltac inv_bind H :=
  unfold bind in H;
  repeat match type of H with
         | match ?r with Ok _ => _ | Err _ => _ end = _ =>
             let E := fresh "E" in destruct r eqn:E; [| discriminate H]
         end.

Lemma Put_Ok (b b' : gmap string (list byte)) (k : string) (v : list byte) :
  storage.Put b k v = Ok b' -> b' = <[k := v]> b.
Proof.
  unfold storage.Put. intros H.
  repeat match type of H with
         | (if ?c then _ else _) = _ => destruct c; [discriminate H |]
         end.
  congruence.
Qed.

Section StoreFacts.

Context {enc : Encoding}.

(** A commit returns an error exactly when it leaves the store as it was:
    [db.Update] rolls the transaction back. *)
Lemma CommitBlock_error_keeps_store (s s' : storage.Store) (c : storage.BlockCommit) (e : error) :
  storage.CommitBlock s c = (s', Some e) -> s' = s.
Proof.
  unfold storage.CommitBlock, storage.Update. intros H.
  destruct (storage.commitBody s c); [destruct (storage.healthy s) |]; congruence.
Qed.

Lemma CommitBlock_best_height (s s' : storage.Store) (c : storage.BlockCommit) :
  storage.CommitBlock s c = (s', None) ->
  storage.meta s' !! storage.metaBestHeight = Some (storage.heightKey (storage.cHeight c)).
Proof.
  unfold storage.CommitBlock, storage.Update. intros H.
  destruct (storage.commitBody s c) as [s1 | e] eqn:Hbody; [| discriminate H].
  destruct (storage.healthy s); [| discriminate H].
  injection H as <-.
  unfold storage.commitBody in Hbody. inv_bind Hbody. injection Hbody as <-.
  cbn [storage.meta].
  match goal with
  | H1 : storage.Put (storage.meta s) _ _ = Ok ?m1, H2 : storage.Put ?m1 _ _ = Ok ?m2 |- _ =>
      apply Put_Ok in H1; apply Put_Ok in H2; subst m2 m1
  end.
  rewrite lookup_insert_ne by discriminate. apply lookup_insert_eq.
Qed.

(** C9: [GetBestHeight] of the chain is 0 on a store without any block,
    whose own best height is -1, and it is 0 again on the chain that holds
    the genesis block only, whose store has best height 0: the operation does
    not tell the two apart. *)
Theorem best_height_of_empty_and_genesis_only
    (cfg : NetworkConfig) (ts : Z) (healthy : bool) (bc : chain.Blockchain) :
  chain.NewBlockchain cfg ts (storage.NewStore healthy) = Ok bc ->
  (storage.GetBestHeight (chain.Store (emptyChain cfg healthy)) = -1 /\
   chain.GetBestHeight (emptyChain cfg healthy) = 0) /\
  (storage.GetBestHeight (chain.Store bc) = 0 /\
   option_map (fun b => Height (Header b)) (chain.lastBlock bc) = Some 0 /\
   chain.GetBestHeight bc = 0).
Proof.
  intros Hboot. split; [split; reflexivity |].
  unfold chain.NewBlockchain in Hboot.
  destruct (storage.CommitBlock _ _) as [store' [e |]] eqn:Hcommit; [discriminate Hboot |].
  injection Hboot as <-. cbn [chain.Store chain.lastBlock].
  apply CommitBlock_best_height in Hcommit. cbn [storage.cHeight] in Hcommit.
  assert (Hstore : storage.GetBestHeight store' = 0).
  { unfold storage.GetBestHeight. rewrite Hcommit. reflexivity. }
  repeat split; [exact Hstore |].
  unfold chain.GetBestHeight. cbn [chain.Store]. rewrite Hstore. reflexivity.
Qed.

End StoreFacts.

(** ** Hex strings of hashes *)

Lemma Decode_Encode_byte (b : byte) (rest : string) :
  hex.Decode (String (hex.hexdigit (Z.shiftr (byte_to_Z b) 4))
                (String (hex.hexdigit (Z.land (byte_to_Z b) 0xf)) rest))
  = (b :: fst (hex.Decode rest), snd (hex.Decode rest)).
Proof.
  destruct b; cbn [hex.Decode byte_to_Z]; destruct (hex.Decode rest); reflexivity.
Qed.

Lemma DecodeString_EncodeToString (l : list byte) :
  hex.DecodeString (hex.EncodeToString l) = (l, true).
Proof.
  unfold hex.DecodeString. induction l as [| b l IH]; [reflexivity |].
  cbn [hex.EncodeToString]. rewrite Decode_Encode_byte, IH. reflexivity.
Qed.

(** ** Block validation and application *)

Lemma CheckProofOfWork_sound (l : list byte) (bits : Z) :
  difficulty.CheckProofOfWork (hex.EncodeToString l) bits = true ->
  length l = 32%nat /\ SetBytes l <= difficulty.BitsToTarget bits.
Proof.
  unfold difficulty.CheckProofOfWork. rewrite DecodeString_EncodeToString.
  cbn [negb orb]. destruct (Nat.eqb_spec (length l) 32) as [E | _]; cbn [negb].
  - intros H. apply Z.leb_le in H. split; assumption.
  - discriminate.
Qed.

Lemma processed_fold (txs : list Transaction) (m : gmap string bool) (id : string) :
  default false (fold_left (fun m tx => <[TxID tx := true]> m) txs m !! id)
  = existsb (String.eqb id) (map TxID txs) || default false (m !! id).
Proof.
  revert m. induction txs as [| tx txs IH]; intros m; [reflexivity |].
  cbn [fold_left map existsb]. rewrite IH.
  destruct (String.eqb_spec id (TxID tx)) as [-> | Hne].
  - rewrite lookup_insert_eq. cbn. rewrite !orb_true_r. reflexivity.
  - rewrite lookup_insert_ne by congruence. reflexivity.
Qed.

Lemma processedOf_spec (b : Block) (tx : Transaction) :
  negb (default false (chain.processedOf b !! TxID tx)) = notIncluded b tx.
Proof.
  unfold chain.processedOf, notIncluded, chain.collectTxIDs.
  rewrite processed_fold, lookup_empty. cbn [default]. rewrite orb_false_r. reflexivity.
Qed.

Section ChainFacts.

Context {enc : Encoding}.

(** What [validateBlock] has checked when it accepts. *)
Lemma validateBlock_accepts (bc : chain.Blockchain) (b : Block) :
  chain.validateBlock bc b = None ->
  Height (Header b) = storage.GetBlockCount (chain.Store bc) /\
  Hash b = block.ComputeHash (Header b) /\
  difficulty.CheckProofOfWork (Hash b) (Bits (Header b)) = true /\
  difficulty.BitsToTarget (Bits (Header b))
  <= difficulty.BitsToTarget
       (difficulty.ProgressiveDifficultyFloor (Height (Header b))
          (DifficultyEpochBlocks (chain.Config bc)) (MinDifficultyBits (chain.Config bc))).
Proof.
  unfold chain.validateBlock. intros H.
  destruct (Z.eqb_spec (Height (Header b)) (storage.GetBlockCount (chain.Store bc)))
    as [Hh | _]; [cbn [negb] in H | discriminate H].
  destruct (_ && _); [discriminate H |].
  destruct (String.eqb_spec (Hash b) (block.ComputeHash (Header b)))
    as [Hhash | _]; [cbn [negb] in H | discriminate H].
  destruct (difficulty.CheckProofOfWork (Hash b) (Bits (Header b))) eqn:Hpow;
    [cbn [negb] in H | discriminate H].
  destruct (_ <? _); [discriminate H |].
  destruct (_ <? _); [discriminate H |].
  destruct (Z.gtb_spec (difficulty.BitsToTarget (Bits (Header b)))
              (difficulty.BitsToTarget
                 (difficulty.ProgressiveDifficultyFloor (Height (Header b))
                    (DifficultyEpochBlocks (chain.Config bc))
                    (MinDifficultyBits (chain.Config bc))))) as [_ | Hle];
    [discriminate H |].
  repeat split; assumption.
Qed.

Lemma AddBlock_success (bc bc' : chain.Blockchain) (b : Block) :
  chain.AddBlock bc b = (bc', None) ->
  chain.validateBlock bc b = None /\
  storage.CommitBlock (chain.Store bc) (commitOf bc b) = (chain.Store bc', None) /\
  chain.Mempool bc' = List.filter (notIncluded b) (chain.Mempool bc) /\
  chain.lastBlock bc' = Some b.
Proof.
  unfold chain.AddBlock. intros H.
  destruct (chain.validateBlock bc b) as [e |]; [discriminate H |].
  fold (applied bc b) in H. fold (commitOf bc b) in H.
  destruct (storage.CommitBlock (chain.Store bc) (commitOf bc b)) as [store' [e |]];
    [discriminate H |].
  injection H as <-. cbn [chain.Store chain.Mempool chain.lastBlock].
  repeat split. apply filter_ext. intros tx. apply processedOf_spec.
Qed.

Lemma floor_at_genesis (epochBlocks minBits : Z) :
  difficulty.ProgressiveDifficultyFloor 0 epochBlocks minBits = minBits.
Proof.
  unfold difficulty.ProgressiveDifficultyFloor.
  destruct (epochBlocks =? 0); [reflexivity |]. rewrite Zdiv_0_l. reflexivity.
Qed.

(** C1 (as amended): every block [AddBlock] commits has a 32-byte header
    hash that, read as a big-endian number, is at most the target of its
    bits, and that target is at most the target of the progressive floor at
    its height.  For the genesis block of the bootstrap only the second
    bound is a rule: its bits are the minimum bits, whose target is the
    floor target at height 0; no proof of work is asked of it. *)
Theorem committed_block_meets_target_and_floor (bc bc' : chain.Blockchain) (b : Block) :
  chain.AddBlock bc b = (bc', None) ->
  let cfg := chain.Config bc in
  (length (block.SHA256d (block.Serialize (Header b))) = 32%nat /\
   hashValue (Header b) <= difficulty.BitsToTarget (Bits (Header b)) /\
   difficulty.BitsToTarget (Bits (Header b))
   <= difficulty.BitsToTarget
        (difficulty.ProgressiveDifficultyFloor (Height (Header b))
           (DifficultyEpochBlocks cfg) (MinDifficultyBits cfg))) /\
  (forall ts : Z,
      let g := chain.CreateGenesisBlock cfg ts in
      difficulty.BitsToTarget (Bits (Header g))
      = difficulty.BitsToTarget
          (difficulty.ProgressiveDifficultyFloor (Height (Header g))
             (DifficultyEpochBlocks cfg) (MinDifficultyBits cfg))).
Proof.
  intros Hadd cfg. split.
  - apply AddBlock_success in Hadd. destruct Hadd as (Hvalid & _).
    apply validateBlock_accepts in Hvalid.
    destruct Hvalid as (_ & Hhash & Hpow & Hfloor).
    rewrite Hhash in Hpow. unfold block.ComputeHash in Hpow.
    apply CheckProofOfWork_sound in Hpow. destruct Hpow as [Hlen Hle].
    repeat split; assumption.
  - intros ts g. subst g. cbn [chain.CreateGenesisBlock Header Bits Height].
    rewrite floor_at_genesis. reflexivity.
Qed.

(** What an error of [AddBlock] tells about the state it returns. *)
Lemma AddBlock_error (bc bc' : chain.Blockchain) (b : Block) (e : error) :
  chain.AddBlock bc b = (bc', Some e) ->
  (exists cause, chain.validateBlock bc b = Some cause /\
                 e = ErrValidationFailed cause /\ bc' = bc)
  \/
  (exists cause, chain.validateBlock bc b = None /\
                 storage.CommitBlock (chain.Store bc) (commitOf bc b)
                 = (chain.Store bc, Some cause) /\
                 e = ErrDbCommitFailed cause /\
                 bc' = {| chain.Config := chain.Config bc; chain.Store := chain.Store bc;
                          chain.Balances := chain.aBalances (applied bc b);
                          chain.Stakes := chain.aStakes (applied bc b);
                          chain.Mempool := chain.Mempool bc;
                          chain.TotalMinted :=
                            (chain.TotalMinted bc + chain.blockMinted (applied bc b))%float;
                          chain.lastBlock := chain.lastBlock bc |}).
Proof.
  unfold chain.AddBlock. intros H.
  destruct (chain.validateBlock bc b) as [cause |].
  - left. exists cause. injection H as <- <-. repeat split.
  - right. fold (applied bc b) in H. fold (commitOf bc b) in H.
    destruct (storage.CommitBlock (chain.Store bc) (commitOf bc b))
      as [store' [cause |]] eqn:Hcommit; [| discriminate H].
    pose proof (CommitBlock_error_keeps_store _ _ _ _ Hcommit) as ->.
    exists cause. injection H as <- <-. repeat split.
Qed.

(** C2 (as amended): when [AddBlock] returns an error, either validation
    failed, the error names the failed check and the chain state is exactly
    the state before the call; or the store commit failed, the error wraps
    the store's error, and the store, the mempool and the tip are as before
    the call, while balances, stakes and total_minted are those reached by
    applying the transactions of the block: they are not rolled back. *)
Theorem AddBlock_failure_leaves (bc bc' : chain.Blockchain) (b : Block) (e : error) :
  chain.AddBlock bc b = (bc', Some e) ->
  (exists cause, e = ErrValidationFailed cause /\
                 chain.validateBlock bc b = Some cause /\ bc' = bc)
  \/
  (exists cause, e = ErrDbCommitFailed cause /\
                 chain.validateBlock bc b = None /\
                 chain.Store bc' = chain.Store bc /\
                 chain.Mempool bc' = chain.Mempool bc /\
                 chain.lastBlock bc' = chain.lastBlock bc /\
                 chain.Balances bc' = chain.aBalances (applied bc b) /\
                 chain.Stakes bc' = chain.aStakes (applied bc b) /\
                 chain.TotalMinted bc'
                 = (chain.TotalMinted bc + chain.blockMinted (applied bc b))%float).
Proof.
  intros H. apply AddBlock_error in H.
  destruct H as [(cause & Hv & He & Hbc) | (cause & Hv & _ & He & Hbc)].
  - left. exists cause. repeat split; assumption.
  - right. exists cause. subst bc'. cbn. repeat split; assumption.
Qed.

End ChainFacts.

(** ** Duplicates in the mempool *)

Lemma AddToMempool_admitted (bc bc1 : chain.Blockchain) (tx : Transaction) :
  chain.AddToMempool bc tx = (bc1, None) ->
  bc1 = chain.setMempool bc (chain.Mempool bc ++ [tx]).
Proof.
  unfold chain.AddToMempool. intros H.
  repeat match type of H with
         | context [if ?c then _ else _] => destruct c
         end; cbn in H; congruence.
Qed.

(** Admission does not look at the mempool. *)
Lemma AddToMempool_again (bc : chain.Blockchain) (mp : list Transaction) (tx : Transaction) :
  snd (chain.AddToMempool (chain.setMempool bc mp) tx) = snd (chain.AddToMempool bc tx).
Proof.
  unfold chain.AddToMempool. cbn [chain.setMempool chain.Balances chain.Stakes chain.Config].
  repeat match goal with
         | |- context [if ?c then _ else _] => destruct c
         end; reflexivity.
Qed.

Lemma notIncluded_true (b : Block) (tx : Transaction) :
  notIncluded b tx = true <-> ~ In (TxID tx) (chain.collectTxIDs b).
Proof.
  unfold notIncluded. rewrite negb_true_iff. split.
  - intros Hex Hin. apply not_true_iff_false in Hex. apply Hex.
    apply existsb_exists. exists (TxID tx). split; [exact Hin | apply String.eqb_refl].
  - intros Hnin. apply not_true_iff_false. intros Hex.
    apply existsb_exists in Hex. destruct Hex as (id & Hin & Heq).
    apply String.eqb_eq in Heq. subst id. contradiction.
Qed.

(** C10: the mempool does not detect duplicates.  A transaction that was
    admitted is admitted again, and the mempool then ends with two entries
    of it.  When [AddBlock] commits a block, the mempool becomes its
    entries whose txid is not among the txids of the block, in their order;
    so if the block includes the transaction, both entries are gone. *)
Theorem mempool_duplicates_leave_together `{Encoding}
    (bc bc1 bc' : chain.Blockchain) (tx : Transaction) (b : Block) :
  chain.AddToMempool bc tx = (bc1, None) ->
  chain.AddBlock (fst (chain.AddToMempool bc1 tx)) b = (bc', None) ->
  chain.AddToMempool bc1 tx
  = (chain.setMempool bc (chain.Mempool bc ++ [tx; tx]), None) /\
  chain.Mempool bc' = List.filter (notIncluded b) (chain.Mempool bc ++ [tx; tx]) /\
  (forall tx', In tx' (chain.Mempool bc')
               <-> In tx' (chain.Mempool bc ++ [tx; tx])
                   /\ ~ In (TxID tx') (chain.collectTxIDs b)) /\
  (In (TxID tx) (chain.collectTxIDs b) -> ~ In tx (chain.Mempool bc')).
Proof.
  intros Hfirst Hblock.
  pose proof (AddToMempool_admitted _ _ _ Hfirst) as ->.
  assert (Hsecond : chain.AddToMempool (chain.setMempool bc (chain.Mempool bc ++ [tx])) tx
                    = (chain.setMempool bc (chain.Mempool bc ++ [tx; tx]), None)).
  { pose proof (AddToMempool_again bc (chain.Mempool bc ++ [tx]) tx) as Hsame.
    rewrite Hfirst in Hsame. cbn [snd] in Hsame.
    destruct (chain.AddToMempool (chain.setMempool bc (chain.Mempool bc ++ [tx])) tx)
      as [bc2 o] eqn:E2.
    cbn [snd] in Hsame. subst o.
    apply AddToMempool_admitted in E2. subst bc2.
    unfold chain.setMempool. cbn. rewrite <- app_assoc. reflexivity. }
  rewrite Hsecond in Hblock |- *. cbn [fst] in Hblock.
  apply AddBlock_success in Hblock. destruct Hblock as (_ & _ & Hmp & _).
  cbn [chain.setMempool chain.Mempool] in Hmp.
  assert (Hin : forall tx', In tx' (chain.Mempool bc')
                            <-> In tx' (chain.Mempool bc ++ [tx; tx])
                                /\ ~ In (TxID tx') (chain.collectTxIDs b)).
  { intros tx'. rewrite Hmp, filter_In, notIncluded_true. reflexivity. }
  split; [reflexivity |]. split; [exact Hmp |]. split; [exact Hin |].
  intros Hincl Hstill. apply Hin in Hstill. tauto.
Qed.

(** ** Compact targets: arithmetic *)

Lemma lor_shiftl_small (hi lo k : Z) :
  0 <= k -> 0 <= hi -> 0 <= lo < 2 ^ k -> Z.lor (Z.shiftl hi k) lo = hi * 2 ^ k + lo.
Proof.
  intros Hk Hhi Hlo.
  assert (Hdisj : Z.land (Z.shiftl hi k) lo = 0).
  { apply Z.bits_inj'. intros n Hn. rewrite Z.land_spec, Z.bits_0.
    destruct (Z.lt_ge_cases n k) as [Hlt | Hge].
    - rewrite Z.shiftl_spec_low by lia. reflexivity.
    - destruct (Z.eq_dec lo 0) as [-> | Hnz]; [rewrite Z.bits_0; apply andb_false_r |].
      rewrite (Z.bits_above_log2 lo n); [apply andb_false_r | lia |].
      apply Z.lt_le_trans with k; [| lia]. apply Z.log2_lt_pow2; lia. }
  rewrite <- Z.lxor_lor by exact Hdisj.
  rewrite <- Z.add_nocarry_lxor by exact Hdisj.
  rewrite Z.shiftl_mul_pow2 by lia. reflexivity.
Qed.

Lemma high_bit_test (m : Z) :
  0 <= m < 2 ^ 24 -> (Z.land m 0x800000 =? 0) = (m <? 2 ^ 23).
Proof.
  intros Hm.
  assert (Hbit : Z.land m 0x800000 = if Z.testbit m 23 then 2 ^ 23 else 0).
  { apply Z.bits_inj'. intros n Hn. rewrite Z.land_spec.
    change 0x800000 with (2 ^ 23). rewrite Z.pow2_bits_eqb by lia.
    destruct (Z.eqb_spec 23 n) as [<- | Hne].
    - destruct (Z.testbit m 23); [rewrite Z.pow2_bits_true by lia | rewrite Z.bits_0]; reflexivity.
    - rewrite andb_false_r.
      destruct (Z.testbit m 23); [rewrite Z.pow2_bits_false by lia | rewrite Z.bits_0]; reflexivity. }
  rewrite Hbit. rewrite Z.testbit_eqb by lia.
  assert (Hq : m / 2 ^ 23 = 0 \/ m / 2 ^ 23 = 1).
  { assert (0 <= m / 2 ^ 23 < 2); [| lia]. split; [apply Z.div_pos; lia |].
    apply Z.div_lt_upper_bound; lia. }
  destruct (Z.ltb_spec m (2 ^ 23)) as [Hlt | Hge].
  - rewrite Z.div_small by lia. reflexivity.
  - destruct Hq as [Hq | Hq]; [| rewrite Hq; reflexivity].
    apply Z.div_small_iff in Hq; lia.
Qed.

Lemma pow256 (n : Z) : 0 <= n -> 2 ^ (8 * n) = 256 ^ n.
Proof. intros Hn. rewrite Z.pow_mul_r by lia. reflexivity. Qed.

(** The byte length brackets the number. *)
Lemma byte_len_bounds (t : Z) :
  0 < t -> 1 <= byte_len t /\ 2 ^ (8 * (byte_len t - 1)) <= t < 2 ^ (8 * byte_len t).
Proof.
  intros Ht. unfold byte_len. rewrite Z.abs_eq by lia.
  destruct (Z.eqb_spec t 0) as [-> | _]; [lia |].
  pose proof (Z.log2_nonneg t) as Hl.
  destruct (Z.log2_spec t Ht) as [Hlo Hhi].
  pose proof (Z.div_mod (Z.log2 t) 8 ltac:(lia)) as Hdm.
  pose proof (Z.mod_pos_bound (Z.log2 t) 8 ltac:(lia)) as Hr.
  assert (Hq : 0 <= Z.log2 t / 8) by (apply Z.div_pos; lia).
  split; [lia |]. split.
  - apply Z.le_trans with (2 ^ Z.log2 t); [| exact Hlo].
    apply Z.pow_le_mono_r; lia.
  - apply Z.lt_le_trans with (2 ^ Z.succ (Z.log2 t)); [exact Hhi |].
    apply Z.pow_le_mono_r; lia.
Qed.

(** And the bracket determines the byte length. *)
Lemma byte_len_unique (t L : Z) :
  1 <= L -> 2 ^ (8 * (L - 1)) <= t < 2 ^ (8 * L) -> byte_len t = L.
Proof.
  intros HL [Hlo Hhi].
  assert (Ht : 0 < t) by (pose proof (Z.pow_pos_nonneg 2 (8 * (L - 1))); lia).
  destruct (byte_len_bounds t Ht) as (H1 & Hlo' & Hhi').
  destruct (Z.lt_trichotomy (byte_len t) L) as [Hlt | [Heq | Hgt]]; [| exact Heq |].
  - exfalso. assert (2 ^ (8 * byte_len t) <= 2 ^ (8 * (L - 1))) by (apply Z.pow_le_mono_r; lia).
    lia.
  - exfalso. assert (2 ^ (8 * L) <= 2 ^ (8 * (byte_len t - 1))) by (apply Z.pow_le_mono_r; lia).
    lia.
Qed.

Lemma Bytes_length (t : Z) : length (Bytes t) = Z.to_nat (byte_len t).
Proof. unfold Bytes. rewrite length_map, length_seq. reflexivity. Qed.

Lemma at_Bytes (t : Z) (i : nat) :
  0 < t -> (i < Z.to_nat (byte_len t))%nat ->
  at_ (Bytes t) i = (t / 2 ^ (8 * (byte_len t - 1 - Z.of_nat i))) mod 256.
Proof.
  intros Ht Hi. unfold at_, Bytes.
  set (len := Z.to_nat (byte_len t)) in *.
  set (f := fun i0 : nat => byte_of_Z (Z.shiftr (Z.abs t) (8 * Z.of_nat (len - 1 - i0)))).
  rewrite (nth_indep _ x00 (f O)) by (rewrite length_map, length_seq; exact Hi).
  rewrite map_nth, seq_nth by exact Hi. cbn [Nat.add]. unfold f.
  rewrite byte_to_Z_of_Z, Z.abs_eq, Z.shiftr_div_pow2 by lia.
  do 3 f_equal. subst len. lia.
Qed.

Lemma lor_add_disjoint (x lo k : Z) :
  0 <= k -> 0 <= x -> x mod 2 ^ k = 0 -> 0 <= lo < 2 ^ k -> Z.lor x lo = x + lo.
Proof.
  intros Hk Hx Hmod Hlo.
  assert (Hpos : 0 < 2 ^ k) by (apply Z.pow_pos_nonneg; lia).
  assert (Hx' : x = Z.shiftl (x / 2 ^ k) k).
  { rewrite Z.shiftl_mul_pow2 by lia. pose proof (Z.div_mod x (2 ^ k)). lia. }
  rewrite Hx' at 1. rewrite lor_shiftl_small; try lia.
  - pose proof (Z.div_mod x (2 ^ k)). lia.
  - apply Z.div_pos; lia.
Qed.

Lemma top3_range (t : Z) : 0 < t -> 3 <= byte_len t -> 2 ^ 16 <= top3 t < 2 ^ 24.
Proof.
  intros Ht HL. destruct (byte_len_bounds t Ht) as (_ & Hlo & Hhi). unfold top3.
  set (L := byte_len t) in *.
  assert (HP : 0 < 2 ^ (8 * (L - 3))) by (apply Z.pow_pos_nonneg; lia).
  replace (8 * (L - 1)) with (16 + 8 * (L - 3)) in Hlo by lia.
  replace (8 * L) with (24 + 8 * (L - 3)) in Hhi by lia.
  rewrite Z.pow_add_r in Hlo, Hhi by lia.
  split.
  - apply Z.div_le_lower_bound; lia.
  - apply Z.div_lt_upper_bound; lia.
Qed.

Lemma top3_bytes (t : Z) :
  0 < t -> 3 <= byte_len t ->
  Z.lor (Z.lor (Z.shiftl (at_ (Bytes t) 0) 16) (Z.shiftl (at_ (Bytes t) 1) 8))
        (at_ (Bytes t) 2)
  = top3 t.
Proof.
  intros Ht HL. pose proof (top3_range t Ht HL) as Hm. unfold top3 in *.
  rewrite !at_Bytes by lia.
  set (L := byte_len t) in *. set (P := 2 ^ (8 * (L - 3))) in *.
  assert (HP : 0 < P) by (apply Z.pow_pos_nonneg; lia).
  replace (2 ^ (8 * (L - 1 - Z.of_nat 0))) with (P * 2 ^ 16)
    by (unfold P; rewrite <- Z.pow_add_r by lia; f_equal; lia).
  replace (2 ^ (8 * (L - 1 - Z.of_nat 1))) with (P * 2 ^ 8)
    by (unfold P; rewrite <- Z.pow_add_r by lia; f_equal; lia).
  replace (2 ^ (8 * (L - 1 - Z.of_nat 2))) with P by (unfold P; f_equal; lia).
  rewrite <- !Z.div_div by lia.
  set (m := t / P) in *.
  rewrite !Z.shiftl_mul_pow2 by lia.
  change (2 ^ 16) with 65536 in *. change (2 ^ 8) with 256. change (2 ^ 24) with 16777216 in *.
  set (A := m / 65536 mod 256). set (B := m / 256 mod 256). set (C := m mod 256).
  assert (HA : 0 <= A < 256) by (apply Z.mod_pos_bound; lia).
  assert (HB : 0 <= B < 256) by (apply Z.mod_pos_bound; lia).
  assert (HC : 0 <= C < 256) by (apply Z.mod_pos_bound; lia).
  assert (Hsum : A * 65536 + B * 256 + C = m)
    by (subst A B C; Z.to_euclidean_division_equations; lia).
  rewrite (lor_add_disjoint (A * 65536) (B * 256) 16);
    [ | lia | lia | apply Z.mod_divide; [lia | exists A; reflexivity] | change (2 ^ 16) with 65536; lia ].
  rewrite (lor_add_disjoint (A * 65536 + B * 256) C 8);
    [ exact Hsum | lia | lia
    | apply Z.mod_divide; [lia | exists (A * 256 + B); change (2 ^ 8) with 256; lia]
    | change (2 ^ 8) with 256; lia ].
Qed.

Lemma u32_small (z : Z) : 0 <= z < 2 ^ 32 -> u32 z = z.
Proof. intros Hz. unfold u32. apply Z.mod_small. exact Hz. Qed.

(** The compact form of a mantissa below 2^24 under an exponent below 256. *)
Lemma pack (e m : Z) :
  0 <= e < 256 -> 0 <= m < 2 ^ 24 -> Z.lor (u32 (Z.shiftl e 24)) m = e * 2 ^ 24 + m.
Proof.
  intros He Hm. rewrite Z.shiftl_mul_pow2 by lia.
  rewrite u32_small by (change (2 ^ 32) with (256 * 2 ^ 24); nia).
  apply (lor_add_disjoint _ _ 24); [lia | lia | | exact Hm].
  apply Z.mod_divide; [lia | exists e; reflexivity].
Qed.

(** What [TargetToBits] packs for a target of at least three bytes. *)
Lemma TargetToBits_long (t : Z) :
  0 < t -> 3 <= byte_len t ->
  byte_len t + (if top3 t <? 2 ^ 23 then 0 else 1) < 256 ->
  difficulty.TargetToBits t
  = if top3 t <? 2 ^ 23 then byte_len t * 2 ^ 24 + top3 t
    else (byte_len t + 1) * 2 ^ 24 + top3 t / 256.
Proof.
  intros Ht HL Hexp. pose proof (top3_range t Ht HL) as Hm.
  unfold difficulty.TargetToBits.
  destruct (Z.eqb_spec (Z.sgn t) 0) as [Hs | _]; [apply Z.sgn_null_iff in Hs; lia |].
  rewrite Bytes_length.
  destruct (Nat.leb_spec 3 (Z.to_nat (byte_len t))) as [_ | Hlt]; [| lia].
  rewrite top3_bytes by assumption. rewrite Z2Nat.id by lia.
  rewrite high_bit_test by lia. revert Hexp.
  destruct (Z.ltb_spec (top3 t) (2 ^ 23)) as [Hlow | Hhigh]; intros Hexp; cbn [negb].
  - rewrite (u32_small (byte_len t)) by lia. apply pack; lia.
  - rewrite (u32_small (byte_len t)) by lia. rewrite (u32_small (byte_len t + 1)) by lia.
    rewrite Z.shiftr_div_pow2 by lia. change (2 ^ 8) with 256.
    apply pack; [lia |].
    split; [apply Z.div_pos; lia | apply Z.div_lt_upper_bound; lia].
Qed.

(** What [BitsToTarget] reads from a packed exponent and mantissa. *)
Lemma BitsToTarget_packed (e m : Z) :
  0 <= e < 256 -> 0 <= m < 2 ^ 23 ->
  difficulty.BitsToTarget (e * 2 ^ 24 + m)
  = if e <=? 3 then m / 2 ^ (8 * (3 - e)) else m * 2 ^ (8 * (e - 3)).
Proof.
  intros He Hm. unfold difficulty.BitsToTarget.
  assert (Hexp : Z.shiftr (e * 2 ^ 24 + m) 24 = e).
  { rewrite Z.shiftr_div_pow2 by lia. rewrite Z.div_add_l by lia.
    rewrite Z.div_small by lia. lia. }
  assert (Hman : Z.land (e * 2 ^ 24 + m) 0x007FFFFF = m).
  { change 0x007FFFFF with (Z.ones 23). rewrite Z.land_ones by lia.
    replace (e * 2 ^ 24 + m) with (m + (e * 2) * 2 ^ 23)
      by (change (2 ^ 24) with (2 * 2 ^ 23); lia).
    rewrite Z.mod_add by lia. apply Z.mod_small. exact Hm. }
  rewrite Hexp, Hman.
  destruct (Z.leb_spec e 3).
  - rewrite u32_small by lia. apply Z.shiftr_div_pow2. lia.
  - rewrite u32_small by lia. apply Z.shiftl_mul_pow2. lia.
Qed.

(** The same reading for the decoder of pow.go, whose sign bit is clear. *)
Lemma CompactToBig_packed (e m : Z) :
  0 <= e < 256 -> 0 <= m < 2 ^ 23 ->
  pow.CompactToBig (e * 2 ^ 24 + m)
  = if e <=? 3 then m / 2 ^ (8 * (3 - e)) else m * 2 ^ (8 * (e - 3)).
Proof.
  intros He Hm. unfold pow.CompactToBig.
  assert (Hexp : Z.shiftr (e * 2 ^ 24 + m) 24 = e).
  { rewrite Z.shiftr_div_pow2 by lia. rewrite Z.div_add_l by lia.
    rewrite Z.div_small by lia. lia. }
  assert (Hman : Z.land (e * 2 ^ 24 + m) 0x007fffff = m).
  { change 0x007fffff with (Z.ones 23). rewrite Z.land_ones by lia.
    replace (e * 2 ^ 24 + m) with (m + (e * 2) * 2 ^ 23)
      by (change (2 ^ 24) with (2 * 2 ^ 23); lia).
    rewrite Z.mod_add by lia. apply Z.mod_small. exact Hm. }
  assert (Hsign : Z.land (e * 2 ^ 24 + m) 0x00800000 = 0).
  { apply Z.bits_inj'. intros n Hn. rewrite Z.land_spec, Z.bits_0.
    change 0x00800000 with (2 ^ 23). rewrite Z.pow2_bits_eqb by lia.
    destruct (Z.eqb_spec 23 n) as [<- | _]; [| apply andb_false_r].
    rewrite andb_true_r. rewrite Z.testbit_eqb by lia.
    replace (e * 2 ^ 24 + m) with (m + (e * 2) * 2 ^ 23)
      by (change (2 ^ 24) with (2 * 2 ^ 23); lia).
    rewrite Z.div_add by lia. rewrite Z.div_small by lia.
    rewrite Z.add_0_l, Z.mod_mul by lia. reflexivity. }
  rewrite Hexp, Hman, Hsign. cbn [Z.eqb negb].
  destruct (Z.leb_spec e 3).
  - apply Z.shiftr_div_pow2. lia.
  - apply Z.shiftl_mul_pow2. lia.
Qed.

Lemma sign_bit_clear (e m : Z) :
  0 <= e -> 0 <= m < 2 ^ 23 -> Z.land (e * 2 ^ 24 + m) 0x00800000 = 0.
Proof.
  intros He Hm. apply Z.bits_inj'. intros n Hn. rewrite Z.land_spec, Z.bits_0.
  change 0x00800000 with (2 ^ 23). rewrite Z.pow2_bits_eqb by lia.
  destruct (Z.eqb_spec 23 n) as [<- | _]; [| apply andb_false_r].
  rewrite andb_true_r. rewrite Z.testbit_eqb by lia.
  replace (e * 2 ^ 24 + m) with (m + (e * 2) * 2 ^ 23)
    by (change (2 ^ 24) with (2 * 2 ^ 23); lia).
  rewrite Z.div_add by lia. rewrite Z.div_small by lia.
  rewrite Z.add_0_l, Z.mod_mul by lia. reflexivity.
Qed.

Lemma at_range (l : list byte) (i : nat) : 0 <= at_ l i < 256.
Proof. unfold at_. apply byte_to_Z_range. Qed.

(** The loop of [BigToCompact] on exactly three bytes. *)
Lemma word_of_three (l : list byte) :
  length l = 3%nat ->
  pow.word_of l 0 0
  = Z.lor (Z.lor (Z.shiftl (at_ l 0) 16) (Z.shiftl (at_ l 1) 8)) (at_ l 2).
Proof.
  destruct l as [| x [| y [| z [| ? ?]]]]; try discriminate. intros _.
  unfold at_. cbn [pow.word_of nth].
  change (8 * (2 - 0)) with 16. change (8 * (2 - (0 + 1))) with 8.
  change (8 * (2 - (0 + 1 + 1))) with 0.
  pose proof (byte_to_Z_range x). pose proof (byte_to_Z_range y).
  pose proof (byte_to_Z_range z).
  rewrite !Z.shiftl_mul_pow2 by lia.
  rewrite !u32_small by lia. rewrite Z.lor_0_l.
  change (2 ^ 0) with 1. rewrite Z.mul_1_r. reflexivity.
Qed.

(** What [BigToCompact] packs for a target of at least three bytes whose
    leading byte has its high bit clear. *)
Lemma BigToCompact_long (t : Z) :
  0 < t -> 3 <= byte_len t < 256 -> top3 t < 2 ^ 23 ->
  pow.BigToCompact t = byte_len t * 2 ^ 24 + top3 t.
Proof.
  intros Ht HL Hlow. pose proof (top3_range t Ht ltac:(lia)) as Hm.
  unfold pow.BigToCompact.
  destruct (Z.eqb_spec (Z.sgn t) 0) as [Hs | _]; [apply Z.sgn_null_iff in Hs; lia |].
  rewrite Bytes_length, Z2Nat.id by lia.
  rewrite (u32_small (byte_len t)) by lia.
  assert (Hcompact :
    (if byte_len t <=? 3
     then Z.lor (u32 (Z.shiftl (byte_len t) 24)) (pow.word_of (Bytes t) 0 0)
     else Z.lor (Z.lor (Z.lor (u32 (Z.shiftl (byte_len t) 24))
                              (Z.shiftl (at_ (Bytes t) 0) 16))
                       (Z.shiftl (at_ (Bytes t) 1) 8))
                (at_ (Bytes t) 2))
    = byte_len t * 2 ^ 24 + top3 t).
  { destruct (Z.leb_spec (byte_len t) 3) as [Hle | Hgt].
    - rewrite word_of_three by (rewrite Bytes_length; lia).
      rewrite top3_bytes by lia. apply pack; lia.
    - rewrite <- !Z.lor_assoc. rewrite (Z.lor_assoc (Z.shiftl _ 16)).
      rewrite top3_bytes by lia. apply pack; lia. }
  rewrite Hcompact. rewrite sign_bit_clear by lia. reflexivity.
Qed.

(** ** Round trip of the compact form *)

Lemma canonical_fields (b : Z) :
  canonical b ->
  b = exponentOf b * 2 ^ 24 + mantissaOf b /\ 0 <= exponentOf b < 256.
Proof.
  intros [Hb Hm]. unfold exponentOf, mantissaOf in *.
  change 0x00ffffff with (Z.ones 24) in *. rewrite Z.land_ones in * by lia.
  rewrite Z.shiftr_div_pow2 by lia.
  pose proof (Z.div_mod b (2 ^ 24) ltac:(lia)).
  split; [lia |]. split; [apply Z.div_pos; lia |].
  apply Z.div_lt_upper_bound; lia.
Qed.

(** The target of a canonical value with exponent at least 3, its byte
    length and its leading bytes. *)
Lemma canonical_target (e m : Z) :
  3 <= e -> 2 ^ 16 <= m < 2 ^ 23 ->
  let t := m * 2 ^ (8 * (e - 3)) in
  0 < t /\ byte_len t = e /\ top3 t = m.
Proof.
  intros He Hm t. subst t.
  assert (HP : 0 < 2 ^ (8 * (e - 3))) by (apply Z.pow_pos_nonneg; lia).
  assert (Hlen : byte_len (m * 2 ^ (8 * (e - 3))) = e).
  { apply byte_len_unique; [lia |].
    replace (8 * (e - 1)) with (16 + 8 * (e - 3)) by lia.
    replace (8 * e) with (24 + 8 * (e - 3)) by lia.
    rewrite !Z.pow_add_r by lia. nia. }
  split; [nia |]. split; [exact Hlen |].
  unfold top3. rewrite Hlen. apply Z.div_mul. lia.
Qed.

(** The loop of [BigToCompact] on two bytes and on one. *)
Lemma word_of_two (l : list byte) :
  length l = 2%nat ->
  pow.word_of l 0 0 = Z.lor (Z.shiftl (at_ l 0) 16) (Z.shiftl (at_ l 1) 8).
Proof.
  destruct l as [| x [| y [| ? ?]]]; try discriminate. intros _.
  unfold at_. cbn [pow.word_of nth].
  change (8 * (2 - 0)) with 16. change (8 * (2 - (0 + 1))) with 8.
  pose proof (byte_to_Z_range x). pose proof (byte_to_Z_range y).
  rewrite !Z.shiftl_mul_pow2 by lia.
  rewrite !u32_small by lia. rewrite Z.lor_0_l. reflexivity.
Qed.

Lemma word_of_one (l : list byte) :
  length l = 1%nat -> pow.word_of l 0 0 = Z.shiftl (at_ l 0) 16.
Proof.
  destruct l as [| x [| ? ?]]; try discriminate. intros _.
  unfold at_. cbn [pow.word_of nth]. change (8 * (2 - 0)) with 16.
  pose proof (byte_to_Z_range x).
  rewrite !Z.shiftl_mul_pow2 by lia.
  rewrite !u32_small by lia. rewrite Z.lor_0_l. reflexivity.
Qed.

(** What [BigToCompact] packs for a two-byte and for a one-byte target with
    a clear high bit: the bytes are left-aligned in the mantissa. *)
Lemma BigToCompact_two (t : Z) :
  2 ^ 8 <= t < 2 ^ 15 -> pow.BigToCompact t = 2 * 2 ^ 24 + t * 256.
Proof.
  intros Ht.
  assert (Hlen : byte_len t = 2) by (apply byte_len_unique; cbn; lia).
  unfold pow.BigToCompact.
  destruct (Z.eqb_spec (Z.sgn t) 0) as [Hs | _]; [apply Z.sgn_null_iff in Hs; lia |].
  rewrite Bytes_length, Hlen. change (u32 (Z.of_nat (Z.to_nat 2))) with 2.
  change (2 <=? 3) with true. cbv iota.
  rewrite word_of_two by (rewrite Bytes_length, Hlen; reflexivity).
  rewrite !at_Bytes by (rewrite ?Hlen; lia). rewrite Hlen.
  change (2 ^ (8 * (2 - 1 - Z.of_nat 0))) with 256.
  change (2 ^ (8 * (2 - 1 - Z.of_nat 1))) with 1. rewrite Z.div_1_r.
  rewrite !Z.shiftl_mul_pow2 by lia.
  assert (Hword : Z.lor (t / 256 mod 256 * 2 ^ 16) (t mod 256 * 2 ^ 8) = t * 256).
  { rewrite (lor_add_disjoint _ _ 16).
    - change (2 ^ 16) with 65536. change (2 ^ 8) with 256.
      change (2 ^ 15) with 32768 in Ht. change (2 ^ 8) with 256 in Ht.
      Z.to_euclidean_division_equations; lia.
    - lia.
    - pose proof (Z.mod_pos_bound (t / 256) 256 ltac:(lia)). lia.
    - apply Z.mod_divide; [lia |]. exists (t / 256 mod 256). reflexivity.
    - pose proof (Z.mod_pos_bound t 256 ltac:(lia)).
      change (2 ^ 16) with 65536. change (2 ^ 8) with 256. lia. }
  rewrite Hword.
  assert (Hpack : Z.lor (u32 (2 * 2 ^ 24)) (t * 256) = 2 * 2 ^ 24 + t * 256).
  { rewrite <- (Z.shiftl_mul_pow2 2 24) by lia. apply pack; lia. }
  rewrite Hpack. rewrite sign_bit_clear by lia. reflexivity.
Qed.

Lemma BigToCompact_one (t : Z) :
  1 <= t < 2 ^ 7 -> pow.BigToCompact t = 1 * 2 ^ 24 + t * 65536.
Proof.
  intros Ht.
  assert (Hlen : byte_len t = 1) by (apply byte_len_unique; cbn; lia).
  unfold pow.BigToCompact.
  destruct (Z.eqb_spec (Z.sgn t) 0) as [Hs | _]; [apply Z.sgn_null_iff in Hs; lia |].
  rewrite Bytes_length, Hlen. change (u32 (Z.of_nat (Z.to_nat 1))) with 1.
  change (1 <=? 3) with true. cbv iota.
  rewrite word_of_one by (rewrite Bytes_length, Hlen; reflexivity).
  rewrite !at_Bytes by (rewrite ?Hlen; lia). rewrite Hlen.
  change (2 ^ (8 * (1 - 1 - Z.of_nat 0))) with 1. rewrite Z.div_1_r.
  rewrite Z.mod_small by lia.
  rewrite !Z.shiftl_mul_pow2 by lia. change (2 ^ 16) with 65536.
  assert (Hpack : Z.lor (u32 (1 * 2 ^ 24)) (t * 65536) = 1 * 2 ^ 24 + t * 65536).
  { rewrite <- (Z.shiftl_mul_pow2 1 24) by lia. apply pack; lia. }
  rewrite Hpack. rewrite sign_bit_clear by lia. reflexivity.
Qed.

(** C7 (as amended): for a canonical compact value [b] (24-bit mantissa with
    a leading byte between 0x01 and 0x7f) whose exponent is at least 3, both
    encoders give [b] back from its decoded target.  Under the exponents 1
    and 2 the decoders cut the low bytes of the mantissa; when these are
    zero, the encoder of pow.go still gives [b] back. *)
Theorem compact_round_trip (b : Z) :
  canonical b ->
  (3 <= exponentOf b ->
   pow.BigToCompact (pow.CompactToBig b) = b /\
   difficulty.TargetToBits (difficulty.BitsToTarget b) = b) /\
  (1 <= exponentOf b < 3 ->
   mantissaOf b mod 2 ^ (8 * (3 - exponentOf b)) = 0 ->
   pow.BigToCompact (pow.CompactToBig b) = b).
Proof.
  intros Hcan. destruct (canonical_fields b Hcan) as [Hb He].
  destruct Hcan as [_ Hm].
  set (e := exponentOf b) in *. set (m := mantissaOf b) in *.
  split.
  - intros He3. destruct (canonical_target e m He3 Hm) as (Ht & Hlen & Htop).
    assert (Hdec : (if e <=? 3 then m / 2 ^ (8 * (3 - e)) else m * 2 ^ (8 * (e - 3)))
                   = m * 2 ^ (8 * (e - 3))).
    { destruct (Z.leb_spec e 3); [| reflexivity].
      replace e with 3 by lia. cbn. rewrite Z.div_1_r. lia. }
    rewrite Hb at 1 3. rewrite CompactToBig_packed, BitsToTarget_packed, Hdec by lia.
    split.
    + rewrite BigToCompact_long by lia. rewrite Hlen, Htop. lia.
    + rewrite TargetToBits_long; rewrite ?Hlen, ?Htop.
      * destruct (Z.ltb_spec m (2 ^ 23)); lia.
      * exact Ht.
      * lia.
      * destruct (Z.ltb_spec m (2 ^ 23)); lia.
  - intros Hshort Hzero.
    rewrite Hb at 1. rewrite CompactToBig_packed by lia.
    destruct (Z.leb_spec e 3) as [_ | Hgt]; [| lia].
    assert (Hcase : e = 2 \/ e = 1) by lia. destruct Hcase as [E | E]; rewrite E in *.
    + change (2 ^ (8 * (3 - 2))) with 256 in *. rewrite BigToCompact_two.
      * Z.to_euclidean_division_equations; lia.
      * change (2 ^ 16) with 65536 in Hm. change (2 ^ 23) with 8388608 in Hm.
        change (2 ^ 8) with 256. change (2 ^ 15) with 32768.
        Z.to_euclidean_division_equations; lia.
    + change (2 ^ (8 * (3 - 1))) with 65536 in *. rewrite BigToCompact_one.
      * Z.to_euclidean_division_equations; lia.
      * change (2 ^ 16) with 65536 in Hm. change (2 ^ 23) with 8388608 in Hm.
        change (2 ^ 7) with 128.
        Z.to_euclidean_division_equations; lia.
Qed.

Lemma compact_round_trip_witness :
  canonical 0x1B0404CB /\
  pow.BigToCompact (pow.CompactToBig 0x1B0404CB) = 0x1B0404CB /\
  difficulty.TargetToBits (difficulty.BitsToTarget 0x1B0404CB) = 0x1B0404CB.
Proof.
  assert (Hcan : canonical 0x1B0404CB).
  { unfold canonical, mantissaOf.
    change (Z.land 0x1B0404CB 0x00ffffff) with 0x0404CB. lia. }
  split; [exact Hcan |].
  apply (proj1 (compact_round_trip 0x1B0404CB Hcan)).
  unfold exponentOf. change (Z.shiftr 0x1B0404CB 24) with 27. lia.
Defined.

(** C7 as stated fails: 0x02123456 is canonical (leading mantissa byte
    0x12), its target is 0x1234, and both encoders return another value. *)
Lemma compact_round_trip_fails_under_exponent_2 :
  canonical 0x02123456 /\
  pow.CompactToBig 0x02123456 = 0x1234 /\
  pow.BigToCompact (pow.CompactToBig 0x02123456) = 0x02123400 /\
  difficulty.TargetToBits (difficulty.BitsToTarget 0x02123456) = 0x02001234 /\
  pow.BigToCompact (pow.CompactToBig 0x02123456) <> 0x02123456 /\
  difficulty.TargetToBits (difficulty.BitsToTarget 0x02123456) <> 0x02123456.
Proof.
  split.
  { unfold canonical, mantissaOf.
    change (Z.land 0x02123456 0x00ffffff) with 0x123456. lia. }
  repeat split; try (vm_compute; reflexivity); vm_compute; discriminate.
Qed.

(** ** The progressive floor *)

Lemma targetLimit_split : targetLimit = 2 ^ 23 * 2 ^ (8 * 252).
Proof. unfold targetLimit. rewrite <- Z.pow_add_r by lia. reflexivity. Qed.

Lemma BitsToTarget_range (bits : Z) :
  0 <= bits < 2 ^ 32 -> 0 <= difficulty.BitsToTarget bits < targetLimit.
Proof.
  intros Hb. unfold difficulty.BitsToTarget.
  assert (He : 0 <= Z.shiftr bits 24 < 256).
  { rewrite Z.shiftr_div_pow2 by lia. split; [apply Z.div_pos; lia |].
    apply Z.div_lt_upper_bound; lia. }
  assert (Hm : 0 <= Z.land bits 0x007FFFFF < 2 ^ 23).
  { change 0x007FFFFF with (Z.ones 23). rewrite Z.land_ones by lia.
    apply Z.mod_pos_bound. lia. }
  set (e := Z.shiftr bits 24) in *. set (m := Z.land bits 0x007FFFFF) in *.
  rewrite targetLimit_split.
  assert (Hbig : 0 < 2 ^ (8 * 252)) by (apply Z.pow_pos_nonneg; lia).
  destruct (Z.leb_spec e 3).
  - rewrite u32_small by lia. rewrite Z.shiftr_div_pow2 by lia.
    assert (HP : 0 < 2 ^ (8 * (3 - e))) by (apply Z.pow_pos_nonneg; lia).
    split; [apply Z.div_pos; lia |].
    apply Z.le_lt_trans with m; [apply Z.div_le_upper_bound; nia | nia].
  - rewrite u32_small by lia. rewrite Z.shiftl_mul_pow2 by lia.
    assert (HP : 0 < 2 ^ (8 * (e - 3))) by (apply Z.pow_pos_nonneg; lia).
    assert (Hle : 2 ^ (8 * (e - 3)) <= 2 ^ (8 * 252)) by (apply Z.pow_le_mono_r; lia).
    split; [nia |]. nia.
Qed.

Lemma mantissa_of_one (t : Z) :
  1 <= t < 2 ^ 8 -> difficulty.TargetToBits t = 1 * 2 ^ 24 + t.
Proof.
  intros Ht.
  assert (Hlen : byte_len t = 1) by (apply byte_len_unique; cbn; lia).
  unfold difficulty.TargetToBits.
  destruct (Z.eqb_spec (Z.sgn t) 0) as [Hs | _]; [apply Z.sgn_null_iff in Hs; lia |].
  rewrite Bytes_length, Hlen. change (Z.to_nat 1) with 1%nat. cbn [Nat.leb Nat.eqb].
  rewrite at_Bytes by (rewrite ?Hlen; lia). rewrite Hlen.
  change (2 ^ (8 * (1 - 1 - Z.of_nat 0))) with 1. rewrite Z.div_1_r.
  rewrite Z.mod_small by lia.
  rewrite high_bit_test by lia.
  destruct (Z.ltb_spec t (2 ^ 23)) as [_ | Hge]; [cbn [negb] | lia].
  change (u32 (Z.of_nat 1)) with 1. apply pack; lia.
Qed.

Lemma mantissa_of_two (t : Z) :
  2 ^ 8 <= t < 2 ^ 16 -> difficulty.TargetToBits t = 2 * 2 ^ 24 + t.
Proof.
  intros Ht.
  assert (Hlen : byte_len t = 2) by (apply byte_len_unique; cbn; lia).
  unfold difficulty.TargetToBits.
  destruct (Z.eqb_spec (Z.sgn t) 0) as [Hs | _]; [apply Z.sgn_null_iff in Hs; lia |].
  rewrite Bytes_length, Hlen. change (Z.to_nat 2) with 2%nat. cbn [Nat.leb Nat.eqb].
  rewrite !at_Bytes by (rewrite ?Hlen; lia). rewrite Hlen.
  change (2 ^ (8 * (2 - 1 - Z.of_nat 0))) with 256.
  change (2 ^ (8 * (2 - 1 - Z.of_nat 1))) with 1. rewrite Z.div_1_r.
  rewrite Z.shiftl_mul_pow2 by lia.
  assert (Hman : Z.lor (t / 256 mod 256 * 2 ^ 8) (t mod 256) = t).
  { rewrite (lor_add_disjoint _ _ 8).
    - change (2 ^ 8) with 256 in *. change (2 ^ 16) with 65536 in Ht.
      Z.to_euclidean_division_equations; lia.
    - lia.
    - pose proof (Z.mod_pos_bound (t / 256) 256 ltac:(lia)). lia.
    - apply Z.mod_divide; [lia |]. exists (t / 256 mod 256). reflexivity.
    - apply Z.mod_pos_bound. lia. }
  rewrite Hman. rewrite high_bit_test by lia.
  destruct (Z.ltb_spec t (2 ^ 23)) as [_ | Hge]; [cbn [negb] | lia].
  change (u32 (Z.of_nat 2)) with 2. apply pack; lia.
Qed.

Lemma redecode_one (t : Z) : 1 <= t < 2 ^ 8 -> redecode t = 0.
Proof.
  intros Ht. unfold redecode. rewrite mantissa_of_one by exact Ht.
  rewrite BitsToTarget_packed by lia. cbn [Z.leb Z.compare Pos.compare Pos.compare_cont].
  apply Z.div_small. cbn. lia.
Qed.

Lemma redecode_two (t : Z) : 2 ^ 8 <= t < 2 ^ 16 -> redecode t = t / 256.
Proof.
  intros Ht. unfold redecode. rewrite mantissa_of_two by exact Ht.
  rewrite BitsToTarget_packed by lia. reflexivity.
Qed.

(** A target below the limit has at most 255 bytes, and with 255 bytes its
    leading byte has the high bit clear. *)
Lemma byte_len_below_limit (t : Z) :
  0 < t < targetLimit -> 3 <= byte_len t ->
  byte_len t + (if top3 t <? 2 ^ 23 then 0 else 1) < 256.
Proof.
  intros [Ht Hlim] HL. destruct (byte_len_bounds t Ht) as (_ & Hlo & _).
  set (L := byte_len t) in *.
  assert (HL255 : L <= 255).
  { destruct (Z.le_gt_cases L 255) as [Hle | Hgt]; [exact Hle | exfalso].
    assert (targetLimit <= 2 ^ (8 * (L - 1)))
      by (unfold targetLimit; apply Z.pow_le_mono_r; lia).
    lia. }
  destruct (Z.ltb_spec (top3 t) (2 ^ 23)) as [_ | Hhigh]; [lia |].
  destruct (Z.eq_dec L 255) as [E | Hne]; [exfalso | lia].
  unfold top3 in Hhigh. fold L in Hhigh. rewrite E in Hhigh.
  rewrite targetLimit_split in Hlim. change (8 * (255 - 3)) with (8 * 252) in Hhigh.
  assert (HP : 0 < 2 ^ (8 * 252)) by (apply Z.pow_pos_nonneg; lia).
  assert (t / 2 ^ (8 * 252) < 2 ^ 23) by (apply Z.div_lt_upper_bound; lia).
  lia.
Qed.

Lemma redecode_long (t : Z) :
  0 < t < targetLimit -> 3 <= byte_len t ->
  redecode t
  = if top3 t <? 2 ^ 23 then top3 t * 2 ^ (8 * (byte_len t - 3))
    else top3 t / 256 * 2 ^ (8 * (byte_len t - 2)).
Proof.
  intros Ht HL. pose proof (byte_len_below_limit t Ht HL) as Hexp.
  pose proof (top3_range t ltac:(lia) HL) as Hm.
  unfold redecode. rewrite TargetToBits_long by (lia || assumption).
  revert Hexp. destruct (Z.ltb_spec (top3 t) (2 ^ 23)) as [Hlow | Hhigh]; intros Hexp.
  - rewrite BitsToTarget_packed by lia.
    destruct (Z.leb_spec (byte_len t) 3) as [Hle | _]; [| reflexivity].
    replace (byte_len t) with 3 by lia. cbn. rewrite Z.div_1_r. lia.
  - assert (Hq : 0 <= top3 t / 256 < 2 ^ 23).
    { split; [apply Z.div_pos; lia | apply Z.div_lt_upper_bound; lia]. }
    rewrite BitsToTarget_packed by lia.
    destruct (Z.leb_spec (byte_len t + 1) 3) as [Hle | _]; [lia |].
    do 2 f_equal. lia.
Qed.

(** Re-decoding never raises a target, and keeps the leading byte of one of
    three bytes or more. *)
Lemma redecode_le (t : Z) : 0 < t < targetLimit -> redecode t <= t.
Proof.
  intros Ht. destruct (byte_len_bounds t ltac:(lia)) as (HL1 & Hlo & Hhi).
  destruct (Z.le_gt_cases 3 (byte_len t)) as [HL | HL].
  - rewrite redecode_long by assumption. unfold top3.
    set (L := byte_len t) in *.
    assert (HP : 0 < 2 ^ (8 * (L - 3))) by (apply Z.pow_pos_nonneg; lia).
    replace (8 * (L - 2)) with (8 + 8 * (L - 3)) by lia.
    rewrite Z.pow_add_r by lia. change (2 ^ 8) with 256.
    set (P := 2 ^ (8 * (L - 3))) in *.
    pose proof (Z.mul_div_le t P HP) as H1.
    assert (H0 : 0 <= t / P) by (apply Z.div_pos; lia).
    pose proof (Z.mul_div_le (t / P) 256 ltac:(lia)) as H2.
    destruct (_ <? _); nia.
  - assert (Hcase : byte_len t = 1 \/ byte_len t = 2) by lia.
    destruct Hcase as [E | E]; rewrite E in *.
    + rewrite redecode_one by (cbn in *; lia). lia.
    + rewrite redecode_two by (cbn in *; lia).
      apply Z.div_le_upper_bound; lia.
Qed.

Lemma redecode_ge (t : Z) :
  0 < t < targetLimit -> 3 <= byte_len t -> 2 ^ (8 * (byte_len t - 1)) <= redecode t.
Proof.
  intros Ht HL. rewrite redecode_long by assumption.
  pose proof (top3_range t ltac:(lia) HL) as Hm.
  set (L := byte_len t) in *.
  assert (HP : 0 < 2 ^ (8 * (L - 3))) by (apply Z.pow_pos_nonneg; lia).
  replace (8 * (L - 2)) with (8 + 8 * (L - 3)) by lia.
  replace (8 * (L - 1)) with (16 + 8 * (L - 3)) by lia.
  rewrite !Z.pow_add_r by lia. change (2 ^ 8) with 256. change (2 ^ 16) with 65536 in *.
  set (P := 2 ^ (8 * (L - 3))) in *.
  destruct (Z.ltb_spec (top3 t) (2 ^ 23)) as [Hlow | Hhigh]; [nia |].
  assert (2 ^ 15 <= top3 t / 256) by (apply Z.div_le_lower_bound; lia).
  nia.
Qed.

Lemma byte_len_mono (t2 t1 : Z) : 0 < t2 <= t1 -> byte_len t2 <= byte_len t1.
Proof.
  intros Ht. destruct (byte_len_bounds t2 ltac:(lia)) as (_ & Hlo2 & _).
  destruct (byte_len_bounds t1 ltac:(lia)) as (_ & _ & Hhi1).
  destruct (Z.le_gt_cases (byte_len t2) (byte_len t1)) as [Hle | Hgt]; [exact Hle | exfalso].
  assert (2 ^ (8 * byte_len t1) <= 2 ^ (8 * (byte_len t2 - 1)))
    by (apply Z.pow_le_mono_r; lia).
  lia.
Qed.

(** Re-decoding is monotone. *)
Lemma redecode_mono (t2 t1 : Z) :
  0 < t2 <= t1 -> t1 < targetLimit -> redecode t2 <= redecode t1.
Proof.
  intros Ht Hlim. pose proof (byte_len_mono t2 t1 Ht) as HL.
  destruct (byte_len_bounds t2 ltac:(lia)) as (H21 & Hlo2 & Hhi2).
  destruct (byte_len_bounds t1 ltac:(lia)) as (H11 & Hlo1 & Hhi1).
  destruct (Z.eq_dec (byte_len t2) (byte_len t1)) as [E | Hne].
  - (* the same number of bytes *)
    destruct (Z.le_gt_cases 3 (byte_len t1)) as [H3 | H3].
    + rewrite !redecode_long by lia. unfold top3. rewrite E.
      set (L := byte_len t1) in *.
      assert (HP : 0 < 2 ^ (8 * (L - 3))) by (apply Z.pow_pos_nonneg; lia).
      replace (8 * (L - 2)) with (8 + 8 * (L - 3)) by lia.
      rewrite Z.pow_add_r by lia. change (2 ^ 8) with 256.
      set (P := 2 ^ (8 * (L - 3))) in *.
      assert (Hm : t2 / P <= t1 / P) by (apply Z.div_le_mono; lia).
      assert (H0 : 0 <= t2 / P) by (apply Z.div_pos; lia).
      assert (Hq : t2 / P / 256 <= t1 / P / 256) by (apply Z.div_le_mono; lia).
      assert (H0' : 0 <= t2 / P / 256) by (apply Z.div_pos; lia).
      destruct (Z.ltb_spec (t2 / P) (2 ^ 23)) as [Hlow2 | Hhigh2];
        destruct (Z.ltb_spec (t1 / P) (2 ^ 23)) as [Hlow1 | Hhigh1]; try nia.
      assert (2 ^ 15 <= t1 / P / 256) by (apply Z.div_le_lower_bound; lia).
      nia.
    + rewrite E in Hlo2, Hhi2.
      assert (Hcase : byte_len t1 = 1 \/ byte_len t1 = 2) by lia.
      destruct Hcase as [E1 | E1]; rewrite E1 in *.
      * change (2 ^ (8 * (1 - 1))) with 1 in *. change (2 ^ (8 * 1)) with (2 ^ 8) in *.
        rewrite !redecode_one by lia. lia.
      * change (2 ^ (8 * (2 - 1))) with (2 ^ 8) in *.
        change (2 ^ (8 * 2)) with (2 ^ 16) in *.
        rewrite !redecode_two by lia. apply Z.div_le_mono; lia.
  - (* fewer bytes *)
    destruct (Z.le_gt_cases 3 (byte_len t1)) as [H3 | H3].
    + pose proof (redecode_ge t1 ltac:(lia) H3) as Hge.
      pose proof (redecode_le t2 ltac:(lia)) as Hle.
      assert (2 ^ (8 * byte_len t2) <= 2 ^ (8 * (byte_len t1 - 1)))
        by (apply Z.pow_le_mono_r; lia).
      lia.
    + assert (E2 : byte_len t2 = 1) by lia. assert (E1 : byte_len t1 = 2) by lia.
      rewrite E1, E2 in *.
      change (2 ^ (8 * (1 - 1))) with 1 in *. change (2 ^ (8 * 1)) with (2 ^ 8) in *.
      change (2 ^ (8 * (2 - 1))) with (2 ^ 8) in *.
      change (2 ^ (8 * 2)) with (2 ^ 16) in *.
      rewrite redecode_one by lia.
      rewrite redecode_two by lia. apply Z.div_pos; lia.
Qed.

(** The target the floor encodes: at least 1, below the limit, and falling
    as the epoch grows, up to epoch 60. *)
Lemma floorTargetAt_range (epoch minBits : Z) :
  1 <= epoch -> 0 <= minBits < 2 ^ 32 ->
  1 <= difficulty.floorTargetAt epoch minBits < targetLimit.
Proof.
  intros He Hb. pose proof (BitsToTarget_range minBits Hb) as HM.
  unfold difficulty.floorTargetAt.
  set (M := difficulty.BitsToTarget minBits) in *.
  set (k := if epoch >? 60 then 60 else epoch).
  assert (Hk : 1 <= k) by (subst k; destruct (Z.gtb_spec epoch 60); lia).
  rewrite Z.shiftr_div_pow2 by lia.
  assert (HP : 1 <= 2 ^ k) by (pose proof (Z.pow_pos_nonneg 2 k); lia).
  assert (Hq : 0 <= M / 2 ^ k <= M).
  { split; [apply Z.div_pos; lia |]. apply Z.div_le_upper_bound; nia. }
  assert (Hone : 1 < targetLimit).
  { unfold targetLimit. change 1 with (2 ^ 0). apply Z.pow_lt_mono_r; lia. }
  destruct (Z.eqb_spec (Z.sgn (M / 2 ^ k)) 0) as [Hz | Hnz]; [lia |].
  assert (M / 2 ^ k <> 0) by (intros E; apply Hnz; rewrite E; reflexivity).
  lia.
Qed.

Lemma floorTargetAt_antitone (e1 e2 minBits : Z) :
  1 <= e1 <= e2 -> 0 <= minBits < 2 ^ 32 ->
  difficulty.floorTargetAt e2 minBits <= difficulty.floorTargetAt e1 minBits.
Proof.
  intros He Hb. pose proof (BitsToTarget_range minBits Hb) as HM.
  unfold difficulty.floorTargetAt.
  set (M := difficulty.BitsToTarget minBits) in *.
  set (k1 := if e1 >? 60 then 60 else e1). set (k2 := if e2 >? 60 then 60 else e2).
  assert (Hk : 1 <= k1 <= k2)
    by (subst k1 k2; destruct (Z.gtb_spec e1 60); destruct (Z.gtb_spec e2 60); lia).
  rewrite !Z.shiftr_div_pow2 by lia.
  assert (HP1 : 0 < 2 ^ k1) by (apply Z.pow_pos_nonneg; lia).
  assert (Hpow : 2 ^ k1 <= 2 ^ k2) by (apply Z.pow_le_mono_r; lia).
  assert (Hq : 0 <= M / 2 ^ k2 <= M / 2 ^ k1).
  { split; [apply Z.div_pos; lia |]. apply Z.div_le_compat_l; lia. }
  destruct (Z.eqb_spec (Z.sgn (M / 2 ^ k2)) 0) as [Hz2 | Hnz2];
    destruct (Z.eqb_spec (Z.sgn (M / 2 ^ k1)) 0) as [Hz1 | Hnz1]; lia.
Qed.



(** ** The run, checked *)

Lemma devnet_bootstrap :
  chain.NewBlockchain devnet.config devnet.genesisTime (storage.NewStore true)
  = Ok devnet.chain0.
Proof. vm_cast_no_check (eq_refl (Ok devnet.chain0)). Qed.

Lemma devnet_block1_committed :
  chain.AddBlock devnet.chain0 devnet.block1 = (devnet.chain1, None).
Proof. vm_cast_no_check (eq_refl (devnet.chain1, @None error)). Qed.

Lemma devnet_payment_admitted :
  chain.AddToMempool devnet.chain1 devnet.payment = (devnet.chain1a, None).
Proof. vm_cast_no_check (eq_refl (devnet.chain1a, @None error)). Qed.

Lemma devnet_block2_committed :
  chain.AddBlock (fst (chain.AddToMempool devnet.chain1a devnet.payment)) devnet.block2
  = (devnet.chain2, None).
Proof. vm_cast_no_check (eq_refl (devnet.chain2, @None error)). Qed.

Lemma devnet_disk_full_commit_fails :
  chain.AddBlock devnet.chain0_disk_full devnet.block1
  = (devnet.chain0_failed, Some (ErrDbCommitFailed ErrDiskWrite)).
Proof.
  vm_cast_no_check (eq_refl (devnet.chain0_failed, Some (ErrDbCommitFailed ErrDiskWrite))).
Qed.

Lemma committed_block_meets_target_and_floor_witness :
  hashValue (Header devnet.block1) <= difficulty.BitsToTarget (Bits (Header devnet.block1)).
Proof.
  exact (proj1 (proj2 (proj1
    (committed_block_meets_target_and_floor devnet.chain0 devnet.chain1 devnet.block1
       devnet_block1_committed)))).
Defined.

(** C1 as stated fails on the genesis block: the bootstrap of the testnet
    commits it at height 0, and its header hash, 3a15f0..., is above the
    target of its bits 0x1F00FFFF. *)
Lemma genesis_hash_is_above_its_target :
  chain.NewBlockchain testnet 1771891200 (storage.NewStore true) = Ok testnetChain0 /\
  chain.lastBlock testnetChain0 = Some testnetGenesis /\
  storage.GetBestHeight (chain.Store testnetChain0) = 0 /\
  Hash testnetGenesis
  = "3a15f07c3bc28bd58d354830b94ba835d0c77849c7777e91c8819b47e7b13d82"%string /\
  difficulty.BitsToTarget (Bits (Header testnetGenesis)) < hashValue (Header testnetGenesis).
Proof.
  split; [vm_cast_no_check (eq_refl (Ok testnetChain0)) |].
  split; [reflexivity |].
  split; [vm_cast_no_check (eq_refl 0) |].
  split; [reflexivity |].
  vm_cast_no_check (eq_refl Lt).
Qed.

Lemma AddBlock_failure_leaves_witness :
  chain.Store devnet.chain0_failed = chain.Store devnet.chain0_disk_full /\
  chain.Mempool devnet.chain0_failed = chain.Mempool devnet.chain0_disk_full.
Proof.
  destruct (AddBlock_failure_leaves _ _ _ _ devnet_disk_full_commit_fails)
    as [(cause & Hcause & _) | (cause & _ & _ & Hstore & Hmempool & _)].
  - discriminate Hcause.
  - split; [exact Hstore | exact Hmempool].
Defined.

(** C2 as stated fails when the commit fails: the block was valid, the disk
    refused the write, [AddBlock] returned the error, and alice's balance and
    total_minted stay at 50 where they were 0 before the call. *)
Lemma commit_failure_is_not_rolled_back :
  chain.validateBlock devnet.chain0_disk_full devnet.block1 = None /\
  chain.AddBlock devnet.chain0_disk_full devnet.block1
  = (devnet.chain0_failed, Some (ErrDbCommitFailed ErrDiskWrite)) /\
  chain.balanceOf (chain.Balances devnet.chain0_disk_full) "alice" = 0%float /\
  chain.balanceOf (chain.Balances devnet.chain0_failed) "alice" = 50%float /\
  chain.TotalMinted devnet.chain0_disk_full = 0%float /\
  chain.TotalMinted devnet.chain0_failed = 50%float /\
  devnet.chain0_failed <> devnet.chain0_disk_full.
Proof.
  split; [vm_cast_no_check (eq_refl (@None error)) |].
  split; [exact devnet_disk_full_commit_fails |].
  split; [vm_cast_no_check (eq_refl 0%float) |].
  split; [vm_cast_no_check (eq_refl 50%float) |].
  split; [reflexivity |]. split; [reflexivity |].
  intros Hsame.
  assert (Hafter : (chain.TotalMinted devnet.chain0_failed =? 0)%float = false)
    by reflexivity.
  rewrite Hsame in Hafter. discriminate Hafter.
Qed.

Lemma best_height_of_empty_and_genesis_only_witness :
  chain.GetBestHeight (emptyChain devnet.config true) = 0 /\
  chain.GetBestHeight devnet.chain0 = 0.
Proof.
  destruct (best_height_of_empty_and_genesis_only devnet.config devnet.genesisTime true
              devnet.chain0 devnet_bootstrap) as [[_ Hempty] (_ & _ & Hgenesis)].
  split; [exact Hempty | exact Hgenesis].
Defined.

Lemma mempool_duplicates_leave_together_witness :
  chain.Mempool devnet.chain2
  = List.filter (notIncluded devnet.block2)
      (chain.Mempool devnet.chain1 ++ [devnet.payment; devnet.payment]).
Proof.
  exact (proj1 (proj2
    (mempool_duplicates_leave_together devnet.chain1 devnet.chain1a devnet.chain2
       devnet.payment devnet.block2 devnet_payment_admitted devnet_block2_committed))).
Defined.

Example devnet_mempool_before_and_after :
  chain.Mempool devnet.chain1b = [devnet.payment; devnet.payment] /\
  chain.Mempool devnet.chain2 = [] /\
  chain.balanceOf (chain.Balances devnet.chain2) "alice" = 89.5%float /\
  chain.balanceOf (chain.Balances devnet.chain2) "bob" = 10%float.
Proof. vm_compute. repeat split. Qed.

(** ** Known answers *)

(** Block 1 of the run: the nonce the search finds and the hash. *)
Example devnet_block1_known_answer :
  Nonce (Header devnet.block1) = 2 /\
  Hash devnet.block1
  = "499bdff737512b496504434bf8aaf78d78d0b63901d76b1ac30191319619c8d2"%string.
Proof. vm_compute. repeat split. Qed.

(** The hash function on the test vectors of FIPS 180-4: one block, the empty
    message, two blocks. *)
Example sha256_known_answers :
  hex.EncodeToString (sha256.Sum256 (bytes_of_string "abc"))
  = "ba7816bf8f01cfea414140de5dae2223b00361a396177a9cb410ff61f20015ad"%string /\
  hex.EncodeToString (sha256.Sum256 [])
  = "e3b0c44298fc1c149afbf4c8996fb92427ae41e4649b934ca495991b7852b855"%string /\
  hex.EncodeToString
    (sha256.Sum256
       (bytes_of_string "abcdbcdecdefdefgefghfghighijhijkijkljklmklmnlmnomnopnopq"))
  = "248d6a61d20638b8e5c026930c3e6039a33ce45964ff2167f6ecedd419db06c1"%string.
Proof. vm_compute. repeat split. Qed.

(** The genesis coinbase of the testnet as [json.Marshal] prints it, and the
    Merkle root over it. *)
Example testnet_genesis_coinbase :
  map TxID (Transactions testnetGenesis)
  = ["d7258e4e5c642fd0b1fff5dfdde654bf220a8fd0ed0cb52c92d57df498773bb7"%string] /\
  MerkleRoot (Header testnetGenesis)
  = "10670b6714168ab93cd2624a3e5e42c5c2170a39813cc54947c7f81fe249d416"%string /\
  map (option_map String.length)
      (map json.MarshalTransaction (Transactions testnetGenesis))
  = [Some 195%nat].
Proof. vm_compute. repeat split. Qed.

(** The compact forms of the sources on some values: the testnet bits go
    round through the high-bit adjustment; a two-byte target comes back
    right-aligned from [TargetToBits] and left-aligned from [BigToCompact];
    the floor of a one-unit target is encoded as 0x01000001, which decodes
    to zero. *)
Example compact_forms_on_samples :
  difficulty.TargetToBits (difficulty.BitsToTarget 0x1F00FFFF) = 0x1F00FFFF /\
  difficulty.TargetToBits (difficulty.BitsToTarget 0x02123400) = 0x02001234 /\
  pow.BigToCompact (pow.CompactToBig 0x02123400) = 0x02123400 /\
  difficulty.ProgressiveDifficultyFloor 1000 1000 0x03000001 = 0x01000001 /\
  difficulty.floorTargetAt 1 0x03000001 = 1 /\
  difficulty.BitsToTarget 0x01000001 = 0.
Proof. vm_compute. repeat split. Qed.
